(** * Mixture density network (examples/tf_mixture_density_network.py)

    A shallow embedding of the example script: the [MixtureDensityNetwork]
    class (its constructor, [neural_network] and [log_prob]) and the
    training loop at module level, together with the properties the
    specification states about them.

    The script builds a TensorFlow graph: a tensor is a symbolic value, a
    function of the variable store (the network parameters theta) and of the
    feed dictionary.  Creating a [Dense] layer declares a new set of
    variables in the graph.  Tensor arithmetic is written once, over an
    abstract scalar backend, and instantiated with the real numbers (exact
    arithmetic) and with a domain carrying the IEEE special values. *)

From Stdlib Require Import Reals Lra Lia ZArith.
From stdpp Require Import base list.

(** ** The scalar backend *)

(** The operations of the numerical backend the script uses on tensor
    entries.  [t_half] and [t_norm_const] are the two literals of the
    Gaussian log-density: 0.5 and -0.5 * log(2 * pi). *)
Class Backend (T : Type) := {
  t_zero : T;
  t_add : T → T → T;
  t_sub : T → T → T;
  t_mul : T → T → T;
  t_div : T → T → T;
  t_exp : T → T;
  t_log : T → T;
  t_relu : T → T;
  t_half : T;
  t_norm_const : T
}.

Section Tensors.
Context {T : Type} `{Backend T}.

(** A rank-2 tensor is a list of rows; a rank-1 tensor is a list. *)
Definition matrix : Type := list (list T).

(** Elementwise binary operation on two rows, with the broadcasting rule on
    the last axis: a row of width 1 is stretched to the width of the
    other. *)
Definition broadcast (f : T → T → T) (a b : list T) : list T :=
  match a, b with
  | [x], _ => map (f x) b
  | _, [y] => map (λ x, f x y) a
  | _, _ => zip_with f a b
  end.

(** Elementwise binary operation on two batches whose rows are paired
    positionally. *)
Definition elementwise (f : T → T → T) (A B : matrix) : matrix :=
  zip_with (broadcast f) A B.

(** [tf.reduce_sum(v)] on a rank-1 tensor. *)
Definition reduce_sum (v : list T) : T := foldr t_add t_zero v.

(** [tf.reduce_sum(M, 1)]: sum along axis 1, one entry per row. *)
Definition reduce_sum_1 (M : matrix) : list T := map reduce_sum M.

(** [tf.square]. *)
Definition t_square (z : T) : T := t_mul z z.

(** ** Keras activations and the [Dense] layer *)

Definition activation : Type := matrix → matrix.

Definition K_relu : activation := map (map t_relu).
Definition K_exp : activation := map (map t_exp).
Definition softmax_row (r : list T) : list T :=
  let e := map t_exp r in map (λ x, t_div x (reduce_sum e)) e.
Definition K_softmax : activation := map softmax_row.
(** [Dense(units)] without an activation argument is linear. *)
Definition linear : activation := λ M, M.

(** The variables of one [Dense] layer: a kernel of shape
    (input width, units), stored by rows, and a bias of length units. *)
Record dense_params : Type := {
  kernel : list (list T);
  bias : list T
}.

(** [x . kernel + bias] for one input row [x]. *)
Definition affine (p : dense_params) (x : list T) : list T :=
  foldr (λ xw acc, zip_with t_add (map (t_mul xw.1) xw.2) acc)
        (bias p) (zip x (kernel p)).

(** ** Graph construction *)

(** The variable store theta: the parameters of every layer, by the index
    of the layer in creation order. *)
Definition store : Type := nat → dense_params.

(** The script feeds the two placeholders [X] and [y]. *)
Record feed_dict : Type := { feed_X : matrix; feed_y : matrix }.

(** A symbolic tensor, evaluated by a session under a store and a feed. *)
Definition tensor : Type := store → feed_dict → matrix.
Definition scalar_tensor : Type := store → feed_dict → T.

Definition placeholder_X : tensor := λ _ fd, feed_X fd.
Definition placeholder_y : tensor := λ _ fd, feed_y fd.

(** The graph under construction: the declared output width of every layer
    created so far, in creation order. *)
Record graph : Type := { layers : list Z }.

Definition build (A : Type) : Type := graph → A * graph.

#[export] Instance build_ret : MRet build := λ A a g, (a, g).
#[export] Instance build_bind : MBind build :=
  λ A B f m g, let (a, g') := m g in f a g'.

(** [Dense(units, activation)(X)]: a new layer is created on every call; it
    owns the next variable slot of the store. *)
Definition Dense (units : Z) (act : activation) (X : tensor) : build tensor :=
  λ g, let id := length (layers g) in
       (λ θ fd, act (map (affine (θ id)) (X θ fd)),
        {| layers := layers g ++ [units] |}).

(** ** The class [MixtureDensityNetwork] *)

(** The instance attributes.  [mus], [sigmas] and [pi] do not exist until
    [neural_network] has run. *)
Record MixtureDensityNetwork : Type := {
  K : Z;
  mus : option tensor;
  sigmas : option tensor;
  pi : option tensor
}.

Definition __init__ (K : Z) : MixtureDensityNetwork :=
  {| K := K; mus := None; sigmas := None; pi := None |}.

Definition neural_network (self : MixtureDensityNetwork) (X : tensor)
  : build MixtureDensityNetwork :=
  hidden1 ← Dense 25 K_relu X;
  hidden2 ← Dense 25 K_relu hidden1;
  mus' ← Dense (K self) linear hidden2;
  sigmas' ← Dense (K self) K_exp hidden2;
  pi' ← Dense (K self) K_softmax hidden2;
  mret {| K := K self; mus := Some mus'; sigmas := Some sigmas';
          pi := Some pi' |}.

(** Modelled from the spec: [edward.stats.norm.logpdf], which is not part
    of the example file.  The spec asks the backend for "a Gaussian
    log-density function" of a value under a mean and a standard deviation;
    it is applied elementwise, [x] of shape N x 1 being broadcast against
    [loc] and [scale] of shape N x K. *)
Definition norm_logpdf (x loc scale : matrix) : matrix :=
  let z := elementwise t_div (elementwise t_sub x loc) scale in
  elementwise t_sub
    (elementwise t_sub (map (map (λ _, t_norm_const)) scale)
                       (map (map t_log) scale))
    (map (map (λ z, t_mul t_half (t_square z))) z).

(** Lines 53-55 of the script on evaluated tensors. *)
Definition mixture_log_prob (pi mus sigmas y : matrix) : T :=
  let result := elementwise t_mul pi (map (map t_exp) (norm_logpdf y mus sigmas)) in
  let result := map t_log (reduce_sum_1 result) in
  reduce_sum result.

(** Reading an attribute; an attribute that was never assigned has no
    tensor behind it. *)
Definition attr (a : option tensor) : tensor := default (λ _ _, []) a.

(** The dictionary [xs] of [log_prob]. *)
Record data : Type := { data_X : tensor; data_y : tensor }.

(** The dictionary the script passes to the inference: the two
    placeholders. *)
Definition script_data : data :=
  {| data_X := placeholder_X; data_y := placeholder_y |}.

(** [log_prob(self, xs, zs)]: the scalar tensor of the log joint density.
    The model has no latent variables and the body never reads [zs]; the
    argument is left out.  The call of [neural_network] rebinds the
    attributes of [self], which are read back on line 53. *)
Definition log_prob (self : MixtureDensityNetwork) (xs : data)
  : build (scalar_tensor * MixtureDensityNetwork) :=
  let X := data_X xs in
  let y := data_y xs in
  self ← neural_network self X;
  mret (λ θ fd, mixture_log_prob (attr (pi self) θ fd) (attr (mus self) θ fd)
                                 (attr (sigmas self) θ fd) (y θ fd),
        self).

End Tensors.

(** ** Shapes, indices and the parameters of the network as a function *)

Section Shapes.
Context {T : Type} `{Backend T}.

(** [M] has [n] rows of width [k]. *)
Definition shape (M : @matrix T) (n k : nat) : Prop :=
  length M = n ∧ Forall (λ r, length r = k) M.

(** The entry [M[i][k]]. *)
Definition entry (M : @matrix T) (i k : nat) : T :=
  nth k (nth i M []) t_zero.

(** The batch whose entry at row [i] and column [j] is [f i j], for [i]
    ranging over [rows] and [j] over [cols]. *)
Definition mk_matrix {I J : Type} (rows : list I) (cols : list J)
    (f : I → J → T) : @matrix T :=
  map (λ i, map (f i) cols) rows.

(** The variables of a layer have the shapes its declared width asks for. *)
Definition layer_shape (p : @dense_params T) (u : nat) : Prop :=
  length (bias p) = u ∧ Forall (λ r, length r = u) (kernel p).

(** Every layer declared in the graph has variables of its declared width
    in the store. *)
Definition store_fits (θ : @store T) (g : graph) : Prop :=
  ∀ id u, layers g !! id = Some u →
    ∃ n : nat, u = Z.of_nat n ∧ layer_shape (θ id) n.

(** The activation kinds of the specification. *)
Inductive activation_kind : Type :=
  | Identity | RectifiedLinear | Exponential | NormalizedExponential.

Definition apply_activation (a : activation_kind) (M : @matrix T) : @matrix T :=
  match a with
  | Identity => M
  | RectifiedLinear => map (map t_relu) M
  | Exponential => map (map t_exp) M
  | NormalizedExponential =>
      map (λ r, map (λ x, t_div x (reduce_sum (map t_exp r))) (map t_exp r)) M
  end.

(** A fully-connected layer: an affine map of every row, then the
    activation. *)
Definition fully_connected (p : @dense_params T) (a : activation_kind)
    (M : @matrix T) : @matrix T :=
  apply_activation a (map (affine p) M).

Record mixture_parameters : Type := {
  mp_pi : @matrix T;
  mp_mu : @matrix T;
  mp_sigma : @matrix T
}.

(** The specification's [compute_mixture_parameters], for the network
    whose five layers occupy the slots [n], ..., [n + 4] of the store. *)
Definition compute_mixture_parameters (θ : @store T) (n : nat)
    (X : @matrix T) : mixture_parameters :=
  let hidden1 := fully_connected (θ n) RectifiedLinear X in
  let hidden2 := fully_connected (θ (n + 1)) RectifiedLinear hidden1 in
  {| mp_mu := fully_connected (θ (n + 2)) Identity hidden2;
     mp_sigma := fully_connected (θ (n + 3)) Exponential hidden2;
     mp_pi := fully_connected (θ (n + 4)) NormalizedExponential hidden2 |}.


(** *** Lists given by their entries *)

Lemma list_as_map (l : list T) :
  l = map (λ i, nth i l t_zero) (seq 0 (length l)).
Proof.
  apply list_eq. intros i. rewrite list_lookup_fmap.
  destruct (decide (i < length l)) as [Hi | Hi].
  - rewrite lookup_seq_lt by done. simpl.
    rewrite (nth_lookup l i t_zero).
    destruct (lookup_lt_is_Some_2 l i Hi) as [x ->]. done.
  - rewrite lookup_seq_ge by lia. rewrite lookup_ge_None_2 by lia. done.
Qed.

Lemma shape_mk_matrix (M : @matrix T) n k :
  shape M n k → M = mk_matrix (seq 0 n) (seq 0 k) (entry M).
Proof.
  intros [Hn Hk]. subst n. unfold mk_matrix, entry.
  apply list_eq. intros i. rewrite list_lookup_fmap.
  destruct (decide (i < length M)) as [Hi | Hi].
  - rewrite lookup_seq_lt by done. simpl.
    destruct (lookup_lt_is_Some_2 M i Hi) as [r Hr].
    rewrite Hr. f_equal.
    rewrite (nth_lookup M i []), Hr. simpl.
    rewrite Forall_forall in Hk.
    rewrite <- (Hk r) by (eapply list_elem_of_lookup_2; eauto).
    apply list_as_map.
  - rewrite lookup_seq_ge by lia. rewrite lookup_ge_None_2 by lia. done.
Qed.

Lemma mk_matrix_shape {I J} (rows : list I) (cols : list J) f :
  shape (mk_matrix rows cols f) (length rows) (length cols).
Proof.
  split.
  - unfold mk_matrix. by rewrite length_map.
  - unfold mk_matrix. apply Forall_forall. intros r Hr.
    apply list_elem_of_fmap in Hr as [i [-> _]]. by rewrite length_map.
Qed.

Lemma mk_matrix_ext {I J} (rows : list I) (cols : list J) f g :
  (∀ i j, i ∈ rows → j ∈ cols → f i j = g i j) →
  mk_matrix rows cols f = mk_matrix rows cols g.
Proof.
  intros Hfg. unfold mk_matrix.
  apply map_ext_in. intros i Hi. apply map_ext_in. intros j Hj.
  apply Hfg; by apply list_elem_of_In.
Qed.

Lemma entry_mk_matrix n k (f : nat → nat → T) i j :
  i < n → j < k → entry (mk_matrix (seq 0 n) (seq 0 k) f) i j = f i j.
Proof.
  intros Hi Hj. unfold entry, mk_matrix.
  rewrite (nth_lookup _ i []), list_lookup_fmap, lookup_seq_lt by done. simpl.
  rewrite (nth_lookup _ j t_zero), list_lookup_fmap, lookup_seq_lt by done. done.
Qed.

End Shapes.

(** ** The network, layer by layer *)

Section Network.
Context {T : Type} `{Backend T}.

Lemma affine_length (p : @dense_params T) u x :
  layer_shape p u → length (affine p x) = u.
Proof.
  intros [Hb Hk]. unfold affine.
  assert (Hz : Forall (λ xw : T * list T, length xw.2 = u) (zip x (kernel p))).
  { apply Forall_forall. intros [a w] Hin.
    apply elem_of_zip_r in Hin. rewrite Forall_forall in Hk. by apply Hk. }
  induction Hz as [| xw l Hxw _ IH]; simpl.
  - done.
  - rewrite length_zip_with, length_map. lia.
Qed.

Lemma apply_activation_shape a (M : @matrix T) n k :
  shape M n k → shape (apply_activation a M) n k.
Proof.
  intros [Hn Hk]. destruct a; simpl; [done | split ..];
    rewrite ?length_map; try done;
    apply Forall_fmap; (eapply Forall_impl; [exact Hk |]);
    intros r Hr; simpl; by rewrite ?length_map.
Qed.

Lemma fully_connected_shape (p : @dense_params T) a M u :
  layer_shape p u → shape (fully_connected p a M) (length M) u.
Proof.
  intros Hp. apply apply_activation_shape. split.
  - by rewrite length_map.
  - apply Forall_fmap, Forall_forall. intros x _. simpl. by apply affine_length.
Qed.

Lemma fully_connected_rows (p : @dense_params T) a M :
  length (fully_connected p a M) = length M.
Proof. unfold fully_connected. destruct a; simpl; by rewrite ?length_map. Qed.

(** What [neural_network] leaves in the graph and in the attributes of
    [self]: five new layers, and three tensors that evaluate to the mixture
    parameters of those layers. *)
Lemma neural_network_unfold (self : @MixtureDensityNetwork T) X g :
  let r := neural_network self X g in
  let n := length (layers g) in
  layers r.2 = layers g ++ [25; 25; K self; K self; K self]%Z
  ∧ K r.1 = K self
  ∧ (∀ θ fd, attr (mus r.1) θ fd = mp_mu (compute_mixture_parameters θ n (X θ fd)))
  ∧ (∀ θ fd, attr (sigmas r.1) θ fd = mp_sigma (compute_mixture_parameters θ n (X θ fd)))
  ∧ (∀ θ fd, attr (pi r.1) θ fd = mp_pi (compute_mixture_parameters θ n (X θ fd))).
Proof.
  unfold neural_network, mbind, build_bind, mret, build_ret, Dense. cbn.
  rewrite !length_app. cbn.
  rewrite <- !Nat.add_assoc. cbn.
  rewrite <- !app_assoc. cbn.
  repeat split.
Qed.

Lemma log_prob_unfold (self : @MixtureDensityNetwork T) xs g :
  let r := log_prob self xs g in
  r.1.2 = (neural_network self (data_X xs) g).1
  ∧ r.2 = (neural_network self (data_X xs) g).2
  ∧ ∀ θ fd,
      r.1.1 θ fd =
        mixture_log_prob (attr (pi r.1.2) θ fd) (attr (mus r.1.2) θ fd)
          (attr (sigmas r.1.2) θ fd) (data_y xs θ fd).
Proof. repeat split. Qed.

(** The three heads have the shape N x K when their layers have width K. *)
Lemma mixture_parameters_shape (θ : @store T) n X k :
  layer_shape (θ (n + 2)) k → layer_shape (θ (n + 3)) k →
  layer_shape (θ (n + 4)) k →
  let mp := compute_mixture_parameters θ n X in
  shape (mp_pi mp) (length X) k ∧ shape (mp_mu mp) (length X) k
  ∧ shape (mp_sigma mp) (length X) k.
Proof.
  intros Hmu Hsigma Hpi. cbn zeta. unfold compute_mixture_parameters. cbn [mp_pi mp_mu mp_sigma].
  set (h2 := fully_connected (θ (n + 1)) RectifiedLinear
               (fully_connected (θ n) RectifiedLinear X)).
  assert (Hh2 : length h2 = length X)
    by (unfold h2; by rewrite !fully_connected_rows).
  rewrite <- Hh2. split; [| split]; by apply fully_connected_shape.
Qed.

(** The head layers of the network built by [neural_network] have width
    [K] in every store that fits the graph. *)
Lemma store_fits_heads (θ : @store T) (self : @MixtureDensityNetwork T) X g k :
  store_fits θ (neural_network self X g).2 → K self = Z.of_nat k →
  let n := length (layers g) in
  layer_shape (θ (n + 2)) k ∧ layer_shape (θ (n + 3)) k
  ∧ layer_shape (θ (n + 4)) k.
Proof.
  intros Hfit HK n.
  destruct (neural_network_unfold self X g) as (Hl & _).
  assert (Hhead : ∀ j, (2 ≤ j < 5) → layer_shape (θ (n + j)) k).
  { intros j Hj. destruct (Hfit (n + j) (K self)) as (m & Hm & Hs).
    - rewrite Hl. rewrite lookup_app_r by (unfold n; lia).
      replace (n + j - length (layers g)) with j by (unfold n; lia).
      destruct j as [| [| [| [| [| j]]]]]; try lia; done.
    - rewrite HK in Hm. apply Nat2Z.inj in Hm. by subst m. }
  split; [| split]; apply Hhead; lia.
Qed.

End Network.

(** ** The likelihood in terms of entries *)

Section Entries.
Context {T : Type} `{Backend T}.

(** The Gaussian log-density of one value, as [norm_logpdf] computes it at
    every position. *)
Definition logpdf_entry (x loc scale : T) : T :=
  t_sub (t_sub t_norm_const (t_log scale))
        (t_mul t_half (t_square (t_div (t_sub x loc) scale))).

Lemma zip_with_map2 {I A B C} (g : A → B → C) (a : I → A) (b : I → B) l :
  zip_with g (map a l) (map b l) = map (λ i, g (a i) (b i)) l.
Proof. induction l as [| i l IH]; simpl; [done | by rewrite IH]. Qed.

Lemma broadcast_same {J} (f : T → T → T) (a b : J → T) cols :
  broadcast f (map a cols) (map b cols) = map (λ j, f (a j) (b j)) cols.
Proof.
  destruct cols as [| j [| j' cols]]; try done.
  unfold broadcast. cbn [map]. by rewrite <- zip_with_map2.
Qed.

Lemma broadcast_col {J} (f : T → T → T) x (b : J → T) cols :
  broadcast f [x] (map b cols) = map (λ j, f x (b j)) cols.
Proof. unfold broadcast. by rewrite map_map. Qed.

Lemma elementwise_same {I J} (f : T → T → T) (a b : I → J → T) rows cols :
  elementwise f (mk_matrix rows cols a) (mk_matrix rows cols b)
  = mk_matrix rows cols (λ i j, f (a i j) (b i j)).
Proof.
  unfold elementwise, mk_matrix. rewrite zip_with_map2.
  apply map_ext. intros i. apply broadcast_same.
Qed.

Lemma elementwise_col {I J} (f : T → T → T) (y : I → T) (b : I → J → T)
    rows cols :
  elementwise f (map (λ i, [y i]) rows) (mk_matrix rows cols b)
  = mk_matrix rows cols (λ i j, f (y i) (b i j)).
Proof.
  unfold elementwise, mk_matrix. rewrite zip_with_map2.
  apply map_ext. intros i. apply broadcast_col.
Qed.

Lemma map_mk_matrix {I J} (g : T → T) (a : I → J → T) rows cols :
  map (map g) (mk_matrix rows cols a) = mk_matrix rows cols (λ i j, g (a i j)).
Proof.
  unfold mk_matrix. rewrite map_map. apply map_ext. intros i. by rewrite map_map.
Qed.

Lemma norm_logpdf_entries {I J} (y : I → T) (m s : I → J → T) rows cols :
  norm_logpdf (map (λ i, [y i]) rows) (mk_matrix rows cols m)
              (mk_matrix rows cols s)
  = mk_matrix rows cols (λ i j, logpdf_entry (y i) (m i j) (s i j)).
Proof.
  unfold norm_logpdf.
  rewrite elementwise_col, !elementwise_same, !map_mk_matrix, !elementwise_same.
  done.
Qed.

Lemma mixture_log_prob_entries {I J} (y : I → T) (p m s : I → J → T)
    rows cols :
  mixture_log_prob (mk_matrix rows cols p) (mk_matrix rows cols m)
                   (mk_matrix rows cols s) (map (λ i, [y i]) rows)
  = reduce_sum (map (λ i, t_log (reduce_sum (map (λ j,
        t_mul (p i j) (t_exp (logpdf_entry (y i) (m i j) (s i j)))) cols)))
      rows).
Proof.
  unfold mixture_log_prob.
  rewrite norm_logpdf_entries, map_mk_matrix, elementwise_same.
  unfold reduce_sum_1, mk_matrix. by rewrite !map_map.
Qed.

(** A batch of shape N x 1 is a column. *)
Lemma shape_column (y : @matrix T) n :
  shape y n 1 → y = map (λ i, [entry y i 0]) (seq 0 n).
Proof. intros Hy. by rewrite (shape_mk_matrix y n 1 Hy) at 1. Qed.


End Entries.

(** ** Exact real arithmetic *)

#[export] Instance R_backend : Backend R := {|
  t_zero := 0%R;
  t_add := Rplus;
  t_sub := Rminus;
  t_mul := Rmult;
  t_div := Rdiv;
  t_exp := exp;
  t_log := ln;
  t_relu := λ x, Rmax x 0;
  t_half := (/ 2)%R;
  t_norm_const := (- / 2 * ln (2 * PI))%R
|}.

Section RealModel.
Open Scope R_scope.

(** The sum of [f i] over [i < n]. *)
Definition big_sum (n : nat) (f : nat → R) : R :=
  foldr Rplus 0 (map f (seq 0 n)).

(** The Gaussian density of [y] with mean [mu] and standard deviation
    [sigma]. *)
Definition normal_density (y mu sigma : R) : R :=
  / (sigma * sqrt (2 * PI))
  * exp (- ((y - mu) * (y - mu) / (2 * (sigma * sigma)))).

(** The specification's [log_likelihood], steps 2 to 5: the sum over the
    rows of the log of the mixture density of the row. *)
Definition log_likelihood (N K : nat) (pi mu sigma y : @matrix R) : R :=
  big_sum N (λ i, ln (big_sum K (λ k,
    entry pi i k
    * normal_density (entry y i 0) (entry mu i k) (entry sigma i k)))).

(** The log-likelihood of a single Gaussian whose mean and standard
    deviation are the first columns of [mu] and [sigma]. *)
Definition gaussian_log_likelihood (N : nat) (mu sigma y : @matrix R) : R :=
  big_sum N (λ i,
    ln (normal_density (entry y i 0) (entry mu i 0) (entry sigma i 0))).

Lemma reduce_sum_big_sum n (f : nat → R) :
  reduce_sum (map f (seq 0 n)) = big_sum n f.
Proof. done. Qed.

Lemma reduce_sum_ext {I} (f g : I → R) l :
  (∀ i, i ∈ l → f i = g i) → reduce_sum (map f l) = reduce_sum (map g l).
Proof.
  intros Hfg. f_equal. apply map_ext_in. intros i Hi.
  by apply Hfg, list_elem_of_In.
Qed.

Lemma big_sum_ext n f g :
  (∀ i, (i < n)%nat → f i = g i) → big_sum n f = big_sum n g.
Proof.
  intros Hfg. apply reduce_sum_ext. intros i Hi.
  apply elem_of_seq in Hi. apply Hfg. lia.
Qed.

Lemma reduce_sum_perm (l l' : list R) :
  l ≡ₚ l' → reduce_sum l = reduce_sum l'.
Proof.
  induction 1 as [| x l l' _ IH | x y l | l l' l'' _ IH1 _ IH2];
    unfold reduce_sum in *; simpl in *.
  - done.
  - by rewrite IH.
  - lra.
  - congruence.
Qed.

Lemma reduce_sum_pos (l : list R) :
  l ≠ [] → Forall (λ x, 0 < x) l → 0 < reduce_sum l.
Proof.
  intros Hne Hl. induction Hl as [| x l Hx Hl IH]; [done |].
  unfold reduce_sum in *. simpl in *. destruct l as [| x' l].
  - simpl. lra.
  - assert (0 < foldr Rplus 0 (x' :: l)) by (by apply IH). simpl in *. lra.
Qed.

Lemma reduce_sum_div (l : list R) s :
  reduce_sum (map (λ x, x / s) l) = reduce_sum l / s.
Proof.
  induction l as [| x l IH]; unfold reduce_sum in *; simpl in *.
  - unfold Rdiv. lra.
  - rewrite IH. unfold Rdiv. lra.
Qed.

Lemma sqrt_2PI_pos : 0 < sqrt (2 * PI).
Proof. apply sqrt_lt_R0. pose proof PI_RGT_0. lra. Qed.

Lemma normal_density_pos y mu sigma : 0 < sigma → 0 < normal_density y mu sigma.
Proof.
  intros Hs. unfold normal_density.
  apply Rmult_lt_0_compat; [| apply exp_pos].
  apply Rinv_0_lt_compat, Rmult_lt_0_compat; [done | apply sqrt_2PI_pos].
Qed.

(** In exact arithmetic, the log-density of the backend is the log of the
    Gaussian density wherever the standard deviation is positive. *)
Lemma exp_logpdf_entry y mu sigma :
  0 < sigma → exp (logpdf_entry y mu sigma) = normal_density y mu sigma.
Proof.
  intros Hs. unfold logpdf_entry, normal_density, t_square. simpl.
  pose proof sqrt_2PI_pos as Hq.
  assert (H2pi : 0 < 2 * PI) by (pose proof PI_RGT_0; lra).
  replace (- / 2 * ln (2 * PI) - ln sigma
           - / 2 * ((y - mu) / sigma * ((y - mu) / sigma)))
    with (- (/ 2 * ln (2 * PI)) + - ln sigma
          + - ((y - mu) * (y - mu) / (2 * (sigma * sigma))))
    by (field; lra).
  rewrite !exp_plus, !exp_Ropp, (exp_ln sigma) by done.
  change (exp (/ 2 * ln (2 * PI))) with (Rpower (2 * PI) (/ 2)).
  rewrite Rpower_sqrt by done.
  pose proof (exp_pos ((y - mu) * (y - mu) / (2 * (sigma * sigma)))).
  field. repeat split; lra.
Qed.

Lemma logpdf_entry_ln y mu sigma :
  0 < sigma → logpdf_entry y mu sigma = ln (normal_density y mu sigma).
Proof. intros Hs. by rewrite <- exp_logpdf_entry, ln_exp. Qed.

(** The layer and the activations on small inputs. *)
Example affine_example :
  affine {| kernel := [[1; 2]; [3; 4]]; bias := [10; 20] |} [1; 1] = [14; 26].
Proof. unfold affine. simpl. f_equal; [lra | f_equal; lra]. Qed.

Example softmax_row_example : softmax_row [0; 0] = [/ 2; / 2].
Proof.
  unfold softmax_row, reduce_sum. simpl. rewrite exp_0.
  f_equal; [lra | f_equal; lra].
Qed.

Example broadcast_example :
  broadcast Rminus [5] [1; 2; 3] = [5 - 1; 5 - 2; 5 - 3].
Proof. reflexivity. Qed.

Example reduce_sum_1_example : reduce_sum_1 [[1; 2]; [3; 4]] = [3; 7].
Proof. unfold reduce_sum_1, reduce_sum. simpl. f_equal; [lra | f_equal; lra]. Qed.

End RealModel.

(** ** The mixture parameters in exact arithmetic *)

Section RealParameters.
Open Scope R_scope.

Lemma entry_Forall (P : R → Prop) (M : @matrix R) n k i j :
  shape M n k → Forall (Forall P) M → (i < n)%nat → (j < k)%nat →
  P (entry M i j).
Proof.
  intros [Hn Hk] HP Hi Hj. unfold entry. subst n.
  destruct (lookup_lt_is_Some_2 M i Hi) as [r Hr].
  rewrite (nth_lookup M i []), Hr. simpl.
  rewrite Forall_forall in Hk.
  assert (Hlen : length r = k) by (eapply Hk, list_elem_of_lookup_2; eauto).
  assert (Hj' : (j < length r)%nat) by lia.
  destruct (lookup_lt_is_Some_2 r j Hj') as [x Hx].
  rewrite (nth_lookup r j), Hx. simpl.
  eapply Forall_lookup_1; [| exact Hx]. eapply Forall_lookup_1; eauto.
Qed.

Lemma row_sum_entries (M : @matrix R) n k i :
  shape M n k → (i < n)%nat →
  big_sum k (entry M i) = reduce_sum (nth i M []).
Proof.
  intros [Hn Hk] Hi. subst n.
  destruct (lookup_lt_is_Some_2 M i Hi) as [r Hr].
  rewrite Forall_forall in Hk.
  assert (Hlen : length r = k) by (eapply Hk, list_elem_of_lookup_2; eauto).
  unfold big_sum, entry. rewrite (nth_lookup M i []), Hr. subst k.
  change (reduce_sum (map (λ j, nth j r t_zero) (seq 0 (length r)))
          = reduce_sum r).
  by rewrite <- (list_as_map r).
Qed.

Lemma softmax_row_sum (r : list R) :
  r ≠ [] → reduce_sum (softmax_row r) = 1.
Proof.
  intros Hr. unfold softmax_row. cbn.
  rewrite (reduce_sum_div (map exp r)).
  assert (0 < reduce_sum (map exp r)).
  { apply reduce_sum_pos.
    - by destruct r.
    - apply Forall_fmap, Forall_forall. intros x _. apply exp_pos. }
  field. lra.
Qed.

Lemma softmax_row_pos (r : list R) :
  r ≠ [] → Forall (λ x, 0 < x) (softmax_row r).
Proof.
  intros Hr. unfold softmax_row. cbn.
  assert (0 < reduce_sum (map exp r)).
  { apply reduce_sum_pos.
    - by destruct r.
    - apply Forall_fmap, Forall_forall. intros x _. apply exp_pos. }
  apply Forall_fmap, Forall_fmap, Forall_forall. intros x _. simpl.
  apply Rdiv_lt_0_compat; [apply exp_pos | done].
Qed.

Lemma sigma_positive (θ : @store R) n X :
  Forall (Forall (λ x, 0 < x)) (mp_sigma (compute_mixture_parameters θ n X)).
Proof.
  cbn. apply Forall_fmap, Forall_forall. intros r _. simpl.
  apply Forall_fmap, Forall_forall. intros x _. apply exp_pos.
Qed.

Lemma pi_row_sum (θ : @store R) n X k i :
  layer_shape (θ (n + 4)%nat) k → (1 ≤ k)%nat → (i < length X)%nat →
  reduce_sum (nth i (mp_pi (compute_mixture_parameters θ n X)) []) = 1.
Proof.
  intros Hpi Hk Hi. cbn.
  set (h2 := map (map (λ x, Rmax x 0)) _).
  assert (Hh2 : length h2 = length X) by (unfold h2; by rewrite !length_map).
  set (a := map (affine (θ (n + 4)%nat)) h2).
  assert (Ha : (i < length a)%nat) by (unfold a; rewrite length_map; lia).
  destruct (lookup_lt_is_Some_2 a i Ha) as [r Hr].
  rewrite (nth_lookup _ i []), list_lookup_fmap, Hr. simpl.
  apply (softmax_row_sum r).
  unfold a in Hr. rewrite list_lookup_fmap in Hr.
  destruct (h2 !! i) as [x |]; [| done]. simpl in Hr. injection Hr as <-.
  intros Hnil. pose proof (affine_length (θ (n + 4)%nat) k x Hpi) as Hl.
  rewrite Hnil in Hl. simpl in Hl. lia.
Qed.

Lemma pi_positive (θ : @store R) n X k :
  layer_shape (θ (n + 4)%nat) k → (1 ≤ k)%nat →
  Forall (Forall (λ x, 0 < x)) (mp_pi (compute_mixture_parameters θ n X)).
Proof.
  intros Hpi Hk. cbn. apply Forall_fmap, Forall_fmap, Forall_forall.
  intros x _. simpl. apply (softmax_row_pos (affine (θ (n + 4)%nat) x)).
  intros Hnil. pose proof (affine_length (θ (n + 4)%nat) k x Hpi) as Hl.
  rewrite Hnil in Hl. simpl in Hl. lia.
Qed.

End RealParameters.

(** ** The log-likelihood in exact arithmetic *)

Section RealLikelihood.
Open Scope R_scope.

(** Lines 53-55 compute the mixture log-likelihood of the specification
    whenever the standard deviations are positive. *)
Lemma mixture_log_prob_real N k (pi mu sigma y : @matrix R) :
  shape pi N k → shape mu N k → shape sigma N k → shape y N 1 →
  (∀ i j, (i < N)%nat → (j < k)%nat → 0 < entry sigma i j) →
  mixture_log_prob pi mu sigma y = log_likelihood N k pi mu sigma y.
Proof.
  intros Hpi Hmu Hsigma Hy Hpos.
  transitivity
    (mixture_log_prob (mk_matrix (seq 0 N) (seq 0 k) (entry pi))
       (mk_matrix (seq 0 N) (seq 0 k) (entry mu))
       (mk_matrix (seq 0 N) (seq 0 k) (entry sigma))
       (map (λ i, [entry y i 0%nat]) (seq 0 N))).
  { by rewrite <- (shape_mk_matrix pi N k), <- (shape_mk_matrix mu N k),
         <- (shape_mk_matrix sigma N k), <- (shape_column y N). }
  rewrite mixture_log_prob_entries. unfold log_likelihood.
  apply big_sum_ext. intros i Hi. cbn [t_log R_backend]. f_equal.
  apply big_sum_ext. intros j Hj. cbn [t_mul t_exp R_backend].
  rewrite exp_logpdf_entry by (by apply Hpos). done.
Qed.

(** The value of the tensor returned by [log_prob], in a store that fits
    the graph, on a batch of N rows. *)
Lemma log_prob_real (self : @MixtureDensityNetwork R) xs g θ fd N k :
  let r := log_prob self xs g in
  store_fits θ r.2 → K self = Z.of_nat k →
  shape (data_X xs θ fd) N 1 → shape (data_y xs θ fd) N 1 →
  r.1.1 θ fd =
    log_likelihood N k (attr (pi r.1.2) θ fd) (attr (mus r.1.2) θ fd)
      (attr (sigmas r.1.2) θ fd) (data_y xs θ fd).
Proof.
  intros r Hfit HK HX Hy.
  destruct (log_prob_unfold self xs g) as (Hself & Hg & Hval).
  fold r in Hself, Hg, Hval. rewrite Hval, Hself.
  destruct (neural_network_unfold self (data_X xs) g) as (_ & _ & Hm & Hs & Hp).
  rewrite Hm, Hs, Hp.
  rewrite Hg in Hfit.
  destruct (store_fits_heads θ self (data_X xs) g k Hfit HK) as (Lm & Ls & Lp).
  destruct (mixture_parameters_shape θ (length (layers g)) (data_X xs θ fd) k
              Lm Ls Lp) as (Sp & Sm & Ss).
  destruct HX as [HXn _]. rewrite HXn in Sp, Sm, Ss.
  apply mixture_log_prob_real; try done.
  intros i j Hi Hj.
  apply (entry_Forall (λ x, 0 < x) _ N k i j Ss (sigma_positive _ _ _) Hi Hj).
Qed.

Lemma big_sum_1 f : big_sum 1 f = f 0%nat.
Proof. unfold big_sum. simpl. lra. Qed.

End RealLikelihood.

(** ** The architecture of the network *)

Section Architecture.
Context {T : Type} `{Backend T}.

(** C3: [neural_network] creates exactly five layers: two hidden layers of
    25 units with rectified-linear activation, the second of which feeds
    three heads of width K: [mus] with the identity, [sigmas] with the
    exponential and [pi] with the normalized exponential (softmax). *)
Theorem neural_network_architecture (self : @MixtureDensityNetwork T) X g :
  let r := neural_network self X g in
  let n := length (layers g) in
  layers r.2 = layers g ++ [25; 25; K self; K self; K self]%Z
  ∧ ∀ θ fd,
      let hidden1 := fully_connected (θ n) RectifiedLinear (X θ fd) in
      let hidden2 := fully_connected (θ (n + 1)) RectifiedLinear hidden1 in
      attr (mus r.1) θ fd = fully_connected (θ (n + 2)) Identity hidden2
      ∧ attr (sigmas r.1) θ fd = fully_connected (θ (n + 3)) Exponential hidden2
      ∧ attr (pi r.1) θ fd
        = fully_connected (θ (n + 4)) NormalizedExponential hidden2.
Proof.
  intros r n.
  destruct (neural_network_unfold self X g) as (Hl & _ & Hm & Hs & Hp).
  split; [exact Hl |]. intros θ fd. cbn zeta.
  fold r in Hm, Hs, Hp. rewrite Hm, Hs, Hp. done.
Qed.

End Architecture.

(** ** A store of zero weights, to run the model on *)

Section ZeroStore.
Open Scope R_scope.

(** A layer of width [u] on inputs of width [d], all weights zero. *)
Definition zero_layer (d u : nat) : @dense_params R :=
  {| kernel := replicate d (replicate u 0); bias := replicate u 0 |}.

(** The store of one network with K = [k] on inputs of width 1. *)
Definition zero_store (k : nat) : @store R :=
  λ id, match id with
        | O => zero_layer 1 25
        | S O => zero_layer 25 25
        | _ => zero_layer 25 k
        end.

Definition empty_graph : graph := {| layers := [] |}.

Lemma zero_layer_shape d u : layer_shape (zero_layer d u) u.
Proof.
  split; simpl.
  - by rewrite length_replicate.
  - apply Forall_replicate. by rewrite length_replicate.
Qed.

Lemma zero_store_fits k :
  store_fits (zero_store k)
    {| layers := [25; 25; Z.of_nat k; Z.of_nat k; Z.of_nat k]%Z |}.
Proof.
  intros id u Hl.
  destruct id as [| [| [| [| [| id]]]]]; simpl in Hl; try done;
    injection Hl as <-;
    first [ exists 25%nat; split; [done | apply zero_layer_shape]
          | exists k; split; [done | apply zero_layer_shape] ].
Qed.

End ZeroStore.

(** ** The properties of the specification, in exact arithmetic *)

Section RealClaims.
Open Scope R_scope.

(** C1, in exact real arithmetic: on row-aligned batches X and y of shape
    N x 1, [log_prob] leaves in [pi], [mus] and [sigmas] the parameters the
    network computes from X (two relu layers and the three heads, on the
    slots of the layers the call has just created), and the tensor it
    returns evaluates to the sum over the rows i of the natural log of the
    sum over the components k of pi[i][k] times the Gaussian density of
    y[i] with mean mu[i][k] and standard deviation sigma[i][k]. *)
Theorem log_prob_is_mixture_log_likelihood
    (self : @MixtureDensityNetwork R) xs g θ fd N k :
  store_fits θ (log_prob self xs g).2 → K self = Z.of_nat k →
  shape (data_X xs θ fd) N 1 → shape (data_y xs θ fd) N 1 →
  attr (pi (log_prob self xs g).1.2) θ fd
  = mp_pi (compute_mixture_parameters θ (length (layers g)) (data_X xs θ fd))
  ∧ attr (mus (log_prob self xs g).1.2) θ fd
    = mp_mu (compute_mixture_parameters θ (length (layers g)) (data_X xs θ fd))
  ∧ attr (sigmas (log_prob self xs g).1.2) θ fd
    = mp_sigma (compute_mixture_parameters θ (length (layers g))
                  (data_X xs θ fd))
  ∧ (log_prob self xs g).1.1 θ fd =
      log_likelihood N k
        (mp_pi (compute_mixture_parameters θ (length (layers g))
                  (data_X xs θ fd)))
        (mp_mu (compute_mixture_parameters θ (length (layers g))
                  (data_X xs θ fd)))
        (mp_sigma (compute_mixture_parameters θ (length (layers g))
                     (data_X xs θ fd)))
        (data_y xs θ fd).
Proof.
  intros Hfit HK HX Hy.
  pose proof (log_prob_real self xs g θ fd N k Hfit HK HX Hy) as Hval.
  cbn zeta in Hval.
  destruct (log_prob_unfold self xs g) as (Hself & _ & _).
  destruct (neural_network_unfold self (data_X xs) g) as (_ & _ & Hm & Hs & Hp).
  rewrite Hself in Hval |- *. rewrite Hm, Hs, Hp in Hval.
  rewrite Hm, Hs, Hp. done.
Qed.

Lemma log_prob_is_mixture_log_likelihood_witness :
  attr (pi (log_prob (__init__ 2) script_data empty_graph).1.2) (zero_store 2)
       {| feed_X := [[1]]; feed_y := [[0]] |}
  = mp_pi (compute_mixture_parameters (zero_store 2) 0 [[1]])
  ∧ attr (mus (log_prob (__init__ 2) script_data empty_graph).1.2)
         (zero_store 2) {| feed_X := [[1]]; feed_y := [[0]] |}
    = mp_mu (compute_mixture_parameters (zero_store 2) 0 [[1]])
  ∧ attr (sigmas (log_prob (__init__ 2) script_data empty_graph).1.2)
         (zero_store 2) {| feed_X := [[1]]; feed_y := [[0]] |}
    = mp_sigma (compute_mixture_parameters (zero_store 2) 0 [[1]])
  ∧ (log_prob (__init__ 2) script_data empty_graph).1.1 (zero_store 2)
      {| feed_X := [[1]]; feed_y := [[0]] |} =
      log_likelihood 1 2
        (mp_pi (compute_mixture_parameters (zero_store 2) 0 [[1]]))
        (mp_mu (compute_mixture_parameters (zero_store 2) 0 [[1]]))
        (mp_sigma (compute_mixture_parameters (zero_store 2) 0 [[1]]))
        [[0]].
Proof.
  apply (log_prob_is_mixture_log_likelihood (__init__ 2) script_data
           empty_graph (zero_store 2)
           {| feed_X := [[1]]; feed_y := [[0]] |} 1 2).
  - apply (zero_store_fits 2).
  - reflexivity.
  - split; [reflexivity | repeat constructor].
  - split; [reflexivity | repeat constructor].
Defined.

(** The rows of [pi] sum to one, exactly. *)
Lemma pi_rows_sum_to_one (self : @MixtureDensityNetwork R) X g θ fd k i :
  (1 ≤ k)%nat → K self = Z.of_nat k →
  store_fits θ (neural_network self X g).2 → (i < length (X θ fd))%nat →
  big_sum k (entry (attr (pi (neural_network self X g).1) θ fd) i) = 1.
Proof.
  intros Hk HK Hfit Hi.
  destruct (neural_network_unfold self X g) as (_ & _ & _ & _ & Hp).
  destruct (store_fits_heads θ self X g k Hfit HK) as (Lm & Ls & Lp).
  destruct (mixture_parameters_shape θ (length (layers g)) (X θ fd) k Lm Ls Lp)
    as (Sp & _ & _).
  rewrite Hp.
  rewrite (row_sum_entries _ (length (X θ fd)) k i Sp Hi).
  by apply (pi_row_sum θ (length (layers g)) (X θ fd) k i).
Qed.



End RealClaims.

(** ** Symmetry and the single-component case *)

Section RealSymmetry.
Open Scope R_scope.




(** With a single head unit, the softmax weight is 1. *)
Lemma pi_entry_single (θ : @store R) n X i :
  layer_shape (θ (n + 4)%nat) 1 → (i < length X)%nat →
  entry (mp_pi (compute_mixture_parameters θ n X)) i 0 = 1.
Proof.
  intros Lp Hi.
  assert (Sp : shape (mp_pi (compute_mixture_parameters θ n X)) (length X) 1).
  { unfold compute_mixture_parameters. cbn [mp_pi].
    set (h2 := fully_connected (θ (n + 1)%nat) RectifiedLinear
                 (fully_connected (θ n) RectifiedLinear X)).
    assert (Hh2 : length h2 = length X)
      by (unfold h2; by rewrite !fully_connected_rows).
    rewrite <- Hh2. by apply fully_connected_shape. }
  rewrite <- (big_sum_1 (entry (mp_pi (compute_mixture_parameters θ n X)) i)).
  rewrite (row_sum_entries _ (length X) 1 i Sp Hi).
  by apply (pi_row_sum θ n X 1%nat i).
Qed.

(** C7, in exact real arithmetic: for K = 1 the softmax forces the single
    mixture weight to 1, and the value of [log_prob] is the log-likelihood
    of one Gaussian with mean mu[:,0] and standard deviation sigma[:,0]. *)
Theorem log_prob_single_component
    (self : @MixtureDensityNetwork R) xs g θ fd N :
  K self = 1%Z → store_fits θ (log_prob self xs g).2 →
  shape (data_X xs θ fd) N 1 → shape (data_y xs θ fd) N 1 →
  (∀ i, (i < N)%nat →
     entry (attr (pi (log_prob self xs g).1.2) θ fd) i 0 = 1)
  ∧ (log_prob self xs g).1.1 θ fd =
      gaussian_log_likelihood N
        (attr (mus (log_prob self xs g).1.2) θ fd)
        (attr (sigmas (log_prob self xs g).1.2) θ fd)
        (data_y xs θ fd).
Proof.
  intros HK Hfit HX Hy.
  assert (HK1 : K self = Z.of_nat 1) by done.
  assert (Hone : ∀ i, (i < N)%nat →
            entry (attr (pi (log_prob self xs g).1.2) θ fd) i 0 = 1).
  { intros i Hi.
    destruct (log_prob_unfold self xs g) as (Hself & Hg & _).
    rewrite Hself. rewrite Hg in Hfit.
    destruct (neural_network_unfold self (data_X xs) g) as (_ & _ & _ & _ & Hp).
    rewrite Hp.
    destruct (store_fits_heads θ self (data_X xs) g 1 Hfit HK1) as (_ & _ & Lp).
    apply pi_entry_single; [done |]. destruct HX as [-> _]. done. }
  split; [exact Hone |].
  rewrite (log_prob_real self xs g θ fd N 1 Hfit HK1 HX Hy).
  unfold log_likelihood, gaussian_log_likelihood.
  apply big_sum_ext. intros i Hi. f_equal.
  rewrite big_sum_1, (Hone i Hi). lra.
Qed.

Lemma log_prob_single_component_witness :
  (∀ i, (i < 1)%nat →
     entry (attr (pi (log_prob (__init__ 1) script_data empty_graph).1.2)
                 (zero_store 1) {| feed_X := [[1]]; feed_y := [[0]] |}) i 0 = 1)
  ∧ (log_prob (__init__ 1) script_data empty_graph).1.1 (zero_store 1)
      {| feed_X := [[1]]; feed_y := [[0]] |} =
      gaussian_log_likelihood 1
        (attr (mus (log_prob (__init__ 1) script_data empty_graph).1.2)
              (zero_store 1) {| feed_X := [[1]]; feed_y := [[0]] |})
        (attr (sigmas (log_prob (__init__ 1) script_data empty_graph).1.2)
              (zero_store 1) {| feed_X := [[1]]; feed_y := [[0]] |})
        [[0]].
Proof.
  apply (log_prob_single_component (__init__ 1) script_data empty_graph
           (zero_store 1) {| feed_X := [[1]]; feed_y := [[0]] |} 1).
  - reflexivity.
  - apply (zero_store_fits 1).
  - split; [reflexivity | repeat constructor].
  - split; [reflexivity | repeat constructor].
Defined.

End RealSymmetry.

(** ** The log-sum-exp formulation *)

Section LogSumExp.
Open Scope R_scope.

(** Logarithms of non-negative numbers: a real, or minus infinity. *)
Inductive ereal : Type :=
  | NegInf
  | Finite (r : R).

(** The log of a weight; the log of 0 is minus infinity. *)
Definition elog (p : R) : ereal :=
  if Rlt_dec 0 p then Finite (ln p) else NegInf.

Definition eexp (t : ereal) : R :=
  match t with NegInf => 0 | Finite r => exp r end.

Definition eadd (t : ereal) (x : R) : ereal :=
  match t with NegInf => NegInf | Finite r => Finite (r + x) end.

Definition emax (a b : ereal) : ereal :=
  match a, b with
  | NegInf, _ => b
  | _, NegInf => a
  | Finite x, Finite y => Finite (Rmax x y)
  end.

Definition emax_list (ts : list ereal) : ereal := foldr emax NegInf ts.

(** The stabilized log-sum-exp: the largest term is subtracted from every
    term before exponentiating and added back after the log. *)
Definition log_sum_exp (ts : list ereal) : R :=
  let m := match emax_list ts with NegInf => 0 | Finite m => m end in
  m + ln (reduce_sum (map (λ t, eexp (eadd t (- m))) ts)).

(** The log of the Gaussian density. *)
Definition log_normal_density (y mu sigma : R) : R :=
  ln (normal_density y mu sigma).

(** The log-likelihood as the sum over the rows of the log-sum-exp over
    the components of log pi[i][k] + log Normal(y[i]; mu[i][k], sigma[i][k]). *)
Definition lse_log_likelihood (N K : nat) (pi mu sigma y : @matrix R) : R :=
  big_sum N (λ i, log_sum_exp (map (λ k,
    eadd (elog (entry pi i k))
         (log_normal_density (entry y i 0) (entry mu i k) (entry sigma i k)))
    (seq 0 K))).

(** Mixture weights: N rows of K non-negative numbers that sum to 1. *)
Definition mixture_weights (N K : nat) (pi : @matrix R) : Prop :=
  shape pi N K
  ∧ (∀ i k, (i < N)%nat → (k < K)%nat → 0 <= entry pi i k)
  ∧ (∀ i, (i < N)%nat → big_sum K (entry pi i) = 1).

Lemma eexp_nonneg t : 0 <= eexp t.
Proof. destruct t; simpl; [lra | left; apply exp_pos]. Qed.

Lemma sum_eexp_nonneg ts : 0 <= reduce_sum (map eexp ts).
Proof.
  induction ts as [| t ts IH]; unfold reduce_sum in *; simpl in *; [lra |].
  pose proof (eexp_nonneg t). lra.
Qed.

Lemma emax_list_NegInf ts :
  emax_list ts = NegInf → Forall (λ t, t = NegInf) ts.
Proof.
  induction ts as [| t ts IH]; simpl; [constructor |].
  destruct t as [| r]; simpl.
  - intros Hm. constructor; [done | by apply IH].
  - destruct (emax_list ts); done.
Qed.

Lemma emax_list_Finite ts m :
  emax_list ts = Finite m → 0 < reduce_sum (map eexp ts).
Proof.
  revert m. induction ts as [| t ts IH]; intros m; simpl; [done |].
  pose proof (sum_eexp_nonneg ts) as Hs.
  unfold reduce_sum in *. simpl in *.
  destruct t as [| r]; simpl.
  - intros Hm. specialize (IH m Hm). lra.
  - intros _. pose proof (exp_pos r). lra.
Qed.

Lemma sum_eexp_shift m ts :
  reduce_sum (map (λ t, eexp (eadd t (- m))) ts)
  = exp (- m) * reduce_sum (map eexp ts).
Proof.
  induction ts as [| t ts IH]; unfold reduce_sum in *; simpl in *; [lra |].
  rewrite IH. destruct t as [| r]; simpl; [lra |].
  rewrite exp_plus. lra.
Qed.

(** The stabilized form computes the log of the sum of the exponentials. *)
Lemma log_sum_exp_eq ts : log_sum_exp ts = ln (reduce_sum (map eexp ts)).
Proof.
  unfold log_sum_exp. destruct (emax_list ts) as [| m] eqn:Hm.
  - apply emax_list_NegInf in Hm. rewrite sum_eexp_shift.
    replace (reduce_sum (map eexp ts)) with 0.
    + rewrite Rmult_0_r. lra.
    + induction Hm as [| t ts -> _ IH]; unfold reduce_sum in *; simpl in *; lra.
  - apply emax_list_Finite in Hm. rewrite sum_eexp_shift.
    rewrite ln_mult by (done || apply exp_pos). rewrite ln_exp. lra.
Qed.

Lemma eexp_weighted p d :
  0 <= p → 0 < d → eexp (eadd (elog p) (ln d)) = p * d.
Proof.
  intros Hp Hd. unfold elog. destruct (Rlt_dec 0 p) as [Hpos | Hneg]; simpl.
  - by rewrite exp_plus, !exp_ln.
  - replace p with 0 by lra. lra.
Qed.

(** C4: in exact arithmetic, for mixture weights pi and positive sigma, the
    value lines 53-55 compute by exponentiating the Gaussian log-densities,
    weighting by pi, summing over the components and taking the log is the
    (stabilized) log-sum-exp over the components of log pi + log density. *)
Theorem log_prob_is_log_sum_exp N k (pi mu sigma y : @matrix R) :
  mixture_weights N k pi → shape mu N k → shape sigma N k → shape y N 1 →
  (∀ i j, (i < N)%nat → (j < k)%nat → 0 < entry sigma i j) →
  mixture_log_prob pi mu sigma y = lse_log_likelihood N k pi mu sigma y.
Proof.
  intros (Hpi & Hnn & _) Hmu Hsigma Hy Hpos.
  rewrite (mixture_log_prob_real N k pi mu sigma y) by done.
  unfold log_likelihood, lse_log_likelihood.
  apply big_sum_ext. intros i Hi. rewrite log_sum_exp_eq. f_equal.
  rewrite map_map. apply reduce_sum_ext. intros j Hj.
  apply elem_of_seq in Hj. unfold log_normal_density.
  rewrite eexp_weighted; [done | apply Hnn; lia |].
  apply normal_density_pos, Hpos; lia.
Qed.

Lemma log_prob_is_log_sum_exp_witness :
  mixture_log_prob [[/ 4; 3 / 4]] [[0; 1]] [[1; 2]] [[5]]
  = lse_log_likelihood 1 2 [[/ 4; 3 / 4]] [[0; 1]] [[1; 2]] [[5]].
Proof.
  apply (log_prob_is_log_sum_exp 1 2 [[/ 4; 3 / 4]] [[0; 1]] [[1; 2]] [[5]]).
  - split; [split; [reflexivity | repeat constructor] | split].
    + intros [| i] [| [| j]] Hi Hj; try lia; unfold entry; simpl; lra.
    + intros [| i] Hi; try lia. unfold big_sum, entry. simpl. lra.
  - split; [reflexivity | repeat constructor].
  - split; [reflexivity | repeat constructor].
  - split; [reflexivity | repeat constructor].
  - intros [| i] [| [| j]] Hi Hj; try lia; unfold entry; simpl; lra.
Defined.

End LogSumExp.

(** ** Floating-point special values *)

(** A tensor entry of a floating-point backend: a finite number of some
    format [F], an infinity, or a NaN. *)
Inductive fp (F : Type) : Type :=
  | Fin (x : F)
  | PInf
  | NInf
  | NaN.
Arguments Fin {F} x.
Arguments PInf {F}.
Arguments NInf {F}.
Arguments NaN {F}.

(** The arithmetic of the finite numbers of the format.  Every operation
    may round, overflow to an infinity or be invalid; nothing is assumed
    about it.  [f_zero s] is the zero of sign [s], [f_is_neg] reads the
    sign bit, [f_half] is the literal 0.5 and [f_norm_const] the literal
    -0.5 * log(2 * pi). *)
Record finite_ops (F : Type) : Type := {
  f_is_zero : F → bool;
  f_is_neg : F → bool;
  f_zero : bool → F;
  f_add : F → F → fp F;
  f_sub : F → F → fp F;
  f_mul : F → F → fp F;
  f_div : F → F → fp F;
  f_exp : F → fp F;
  f_log : F → fp F;
  f_relu : F → F;
  f_half : F;
  f_norm_const : F
}.
Arguments f_is_zero {F}.
Arguments f_is_neg {F}.
Arguments f_zero {F}.
Arguments f_add {F}.
Arguments f_sub {F}.
Arguments f_mul {F}.
Arguments f_div {F}.
Arguments f_exp {F}.
Arguments f_log {F}.
Arguments f_relu {F}.
Arguments f_half {F}.
Arguments f_norm_const {F}.

Section SpecialValues.
Context {F : Type} (ops : finite_ops F).

Definition fp_is_zero (v : fp F) : bool :=
  match v with Fin x => f_is_zero ops x | _ => false end.

(** The sign bit; [true] is negative. *)
Definition fp_sign (v : fp F) : bool :=
  match v with Fin x => f_is_neg ops x | NInf => true | _ => false end.

Definition inf_of_sign (s : bool) : fp F := if s then NInf else PInf.

(** The IEEE 754 rules for the special values; on two finite numbers the
    format decides. *)
Definition fp_add (a b : fp F) : fp F :=
  match a, b with
  | NaN, _ | _, NaN => NaN
  | Fin x, Fin y => f_add ops x y
  | PInf, NInf | NInf, PInf => NaN
  | PInf, _ | _, PInf => PInf
  | NInf, _ | _, NInf => NInf
  end.

Definition fp_sub (a b : fp F) : fp F :=
  match a, b with
  | NaN, _ | _, NaN => NaN
  | Fin x, Fin y => f_sub ops x y
  | PInf, PInf | NInf, NInf => NaN
  | PInf, _ | _, NInf => PInf
  | NInf, _ | _, PInf => NInf
  end.

Definition fp_mul (a b : fp F) : fp F :=
  match a, b with
  | NaN, _ | _, NaN => NaN
  | Fin x, Fin y => f_mul ops x y
  | _, _ =>
      if fp_is_zero a || fp_is_zero b then NaN
      else inf_of_sign (xorb (fp_sign a) (fp_sign b))
  end.

Definition fp_div (a b : fp F) : fp F :=
  match a, b with
  | NaN, _ | _, NaN => NaN
  | Fin x, Fin y =>
      if f_is_zero ops y then
        if f_is_zero ops x then NaN
        else inf_of_sign (xorb (f_is_neg ops x) (f_is_neg ops y))
      else f_div ops x y
  | Fin x, _ => Fin (f_zero ops (xorb (f_is_neg ops x) (fp_sign b)))
  | _, Fin y => inf_of_sign (xorb (fp_sign a) (f_is_neg ops y))
  | _, _ => NaN
  end.

Definition fp_exp (a : fp F) : fp F :=
  match a with
  | NaN => NaN
  | PInf => PInf
  | NInf => Fin (f_zero ops false)
  | Fin x => f_exp ops x
  end.

Definition fp_log (a : fp F) : fp F :=
  match a with
  | NaN | NInf => NaN
  | PInf => PInf
  | Fin x =>
      if f_is_zero ops x then NInf
      else if f_is_neg ops x then NaN
      else f_log ops x
  end.

Definition fp_relu (a : fp F) : fp F :=
  match a with
  | NaN => NaN
  | PInf => PInf
  | NInf => Fin (f_zero ops false)
  | Fin x => Fin (f_relu ops x)
  end.

Definition fp_backend : Backend (fp F) := {|
  t_zero := Fin (f_zero ops false);
  t_add := fp_add;
  t_sub := fp_sub;
  t_mul := fp_mul;
  t_div := fp_div;
  t_exp := fp_exp;
  t_log := fp_log;
  t_relu := fp_relu;
  t_half := Fin (f_half ops);
  t_norm_const := Fin (f_norm_const ops)
|}.

#[local] Existing Instance fp_backend.

(** The literal 0.5 is a positive number of the format. *)
Definition half_positive : Prop :=
  f_is_zero ops (f_half ops) = false ∧ f_is_neg ops (f_half ops) = false.

Lemma fp_div_by_zero a s :
  fp_is_zero s = true →
  fp_div a s = NaN ∨ fp_div a s = PInf ∨ fp_div a s = NInf.
Proof.
  destruct s as [z | | |]; simpl; try done. intros Hz.
  destruct a as [x | | |]; simpl; rewrite ?Hz; auto.
  - destruct (f_is_zero ops x); auto.
    destruct (xorb _ _); simpl; auto.
  - destruct (f_is_neg ops z); simpl; auto.
  - destruct (f_is_neg ops z); simpl; auto.
Qed.

(** The Gaussian log-density at a zero standard deviation is a NaN: the
    infinite [- log scale] meets the infinite squared deviation. *)
Lemma logpdf_entry_zero_scale x loc s :
  half_positive → fp_is_zero s = true → logpdf_entry x loc s = NaN.
Proof.
  intros [Hz Hn] Hs. unfold logpdf_entry, t_square. cbn.
  assert (Hlog : fp_log s = NInf).
  { destruct s as [z | | |]; simpl in *; try done. by rewrite Hs. }
  rewrite Hlog. cbn.
  destruct (fp_div_by_zero (fp_sub x loc) s Hs) as [-> | [-> | ->]]; cbn;
    rewrite ?Hz, ?Hn; done.
Qed.

Lemma fp_add_NaN_l a : fp_add NaN a = NaN.
Proof. done. Qed.

Lemma fp_add_NaN_r a : fp_add a NaN = NaN.
Proof. by destruct a. Qed.

Lemma fp_mul_NaN_r a : fp_mul a NaN = NaN.
Proof. by destruct a. Qed.

(** A sum with a NaN among its terms is a NaN. *)
Lemma reduce_sum_NaN (l : list (fp F)) : NaN ∈ l → reduce_sum l = NaN.
Proof.
  induction l as [| a l IH]; intros Hin.
  - by apply elem_of_nil in Hin.
  - apply elem_of_cons in Hin as [<- | Hin]; unfold reduce_sum in *;
      cbn [foldr].
    + done.
    + rewrite IH by done. apply fp_add_NaN_r.
Qed.

(** Lines 53-55 on a batch in which some sigma[i][j] is zero. *)
Lemma mixture_log_prob_zero_sigma N k (pi mu sigma y : @matrix (fp F)) i j :
  half_positive →
  shape pi N k → shape mu N k → shape sigma N k → shape y N 1 →
  i < N → j < k → fp_is_zero (entry sigma i j) = true →
  mixture_log_prob pi mu sigma y = NaN.
Proof.
  intros Hh Hpi Hmu Hsigma Hy Hi Hj Hz.
  rewrite (shape_mk_matrix pi N k Hpi), (shape_mk_matrix mu N k Hmu),
          (shape_mk_matrix sigma N k Hsigma), (shape_column y N Hy).
  rewrite mixture_log_prob_entries.
  apply reduce_sum_NaN. apply list_elem_of_fmap. exists i.
  split; [| apply elem_of_seq; lia].
  rewrite (reduce_sum_NaN (map _ (seq 0 k))); [done |].
  apply list_elem_of_fmap. exists j. split; [| apply elem_of_seq; lia].
  rewrite (logpdf_entry_zero_scale _ _ _ Hh Hz). cbn.
  by rewrite fp_mul_NaN_r.
Qed.

End SpecialValues.

(** Exact arithmetic on the finite numbers, as one instance of the
    format. *)
Definition exact_ops : finite_ops R := {|
  f_is_zero := λ x, if Req_dec_T x 0 then true else false;
  f_is_neg := λ x, if Rlt_dec x 0 then true else false;
  f_zero := λ _, 0%R;
  f_add := λ x y, Fin (x + y)%R;
  f_sub := λ x y, Fin (x - y)%R;
  f_mul := λ x y, Fin (x * y)%R;
  f_div := λ x y, Fin (x / y)%R;
  f_exp := λ x, Fin (exp x);
  f_log := λ x, Fin (ln x);
  f_relu := λ x, Rmax x 0;
  f_half := (/ 2)%R;
  f_norm_const := (- / 2 * ln (2 * PI))%R
|}.

Lemma exact_half_positive : half_positive exact_ops.
Proof.
  split; simpl.
  - destruct (Req_dec_T (/ 2) 0) as [Heq | _]; [lra | done].
  - destruct (Rlt_dec (/ 2) 0) as [Hlt | _]; [lra | done].
Qed.

Lemma exact_zero_is_zero : fp_is_zero exact_ops (Fin 0%R) = true.
Proof. simpl. destruct (Req_dec_T 0 0) as [_ | Hne]; [done | lra]. Qed.

(** A layer of width [u] on inputs of width [d] with one weight [w] and
    one bias [b] throughout. *)
Definition flat_layer (d u : nat) (w b : fp R) : @dense_params (fp R) :=
  {| kernel := replicate d (replicate u w); bias := replicate u b |}.

(** A store for K = 1 in which the bias of the [sigmas] head (slot 3) has
    run off to minus infinity, so that sigma is zero. *)
Definition collapsed_store : @store (fp R) :=
  λ id, match id with
        | 0 => flat_layer 1 25 (Fin 0%R) (Fin 0%R)
        | 1 => flat_layer 25 25 (Fin 0%R) (Fin 0%R)
        | 3 => flat_layer 25 1 (Fin 0%R) NInf
        | _ => flat_layer 25 1 (Fin 0%R) (Fin 0%R)
        end.

Lemma flat_layer_shape d u w b : layer_shape (flat_layer d u w b) u.
Proof.
  split; simpl.
  - by rewrite length_replicate.
  - apply Forall_replicate. by rewrite length_replicate.
Qed.

Lemma collapsed_store_fits :
  store_fits collapsed_store {| layers := [25; 25; 1; 1; 1]%Z |}.
Proof.
  intros id u Hl.
  destruct id as [| [| [| [| [| id]]]]]; simpl in Hl; try done;
    injection Hl as <-;
    first [ exists 25; split; [done | apply flat_layer_shape]
          | exists 1; split; [done | apply flat_layer_shape] ].
Qed.

Section Unguarded.
Context {F : Type} (ops : finite_ops F).
#[local] Instance fp_backend_ops : Backend (fp F) := fp_backend ops.

(** The value of [log_prob] when some sigma[i][j] of the batch is zero. *)
Lemma log_prob_zero_sigma (self : @MixtureDensityNetwork (fp F)) xs g θ fd
    N k i j :
  half_positive ops →
  store_fits θ (log_prob self xs g).2 → K self = Z.of_nat k →
  shape (data_X xs θ fd) N 1 → shape (data_y xs θ fd) N 1 →
  i < N → j < k →
  fp_is_zero ops (entry (attr (sigmas (log_prob self xs g).1.2) θ fd) i j)
  = true →
  (log_prob self xs g).1.1 θ fd = NaN.
Proof.
  intros Hh Hfit HK HX Hy Hi Hj.
  destruct (log_prob_unfold self xs g) as (Hself & Hg & Hval).
  rewrite Hval, Hself.
  destruct (neural_network_unfold self (data_X xs) g) as (_ & _ & Hm & Hs & Hp).
  rewrite Hm, Hs, Hp. rewrite Hg in Hfit.
  destruct (store_fits_heads θ self (data_X xs) g k Hfit HK) as (Lm & Ls & Lp).
  destruct (mixture_parameters_shape θ (length (layers g)) (data_X xs θ fd) k
              Lm Ls Lp) as (Sp & Sm & Ss).
  destruct HX as [HXn _]. rewrite HXn in Sp, Sm, Ss.
  intros Hz.
  by apply (mixture_log_prob_zero_sigma ops N k _ _ _ _ i j).
Qed.

(** C6: the constructor accepts any K, K <= 0 included, and stores it
    unchecked; and when some sigma[i][k] is zero, [log_prob] raises nothing
    and evaluates to a NaN or minus infinity (with the IEEE rules for the
    special values, whatever the rounding of the finite arithmetic). *)
Theorem unguarded_K_and_sigma :
  half_positive ops →
  (∀ K0 : Z, (K0 ≤ 0)%Z →
     @__init__ (fp F) K0
     = {| K := K0; mus := None; sigmas := None; pi := None |})
  ∧ (∀ (self : @MixtureDensityNetwork (fp F)) xs g θ fd N k i j,
       store_fits θ (log_prob self xs g).2 → K self = Z.of_nat k →
       shape (data_X xs θ fd) N 1 → shape (data_y xs θ fd) N 1 →
       i < N → j < k →
       fp_is_zero ops
         (entry (attr (sigmas (log_prob self xs g).1.2) θ fd) i j) = true →
       (log_prob self xs g).1.1 θ fd = NInf
       ∨ (log_prob self xs g).1.1 θ fd = NaN).
Proof.
  intros Hh. split.
  - done.
  - intros self xs g θ fd N k i j Hfit HK HX Hy Hi Hj Hz. right.
    by apply (log_prob_zero_sigma self xs g θ fd N k i j).
Qed.

End Unguarded.

Lemma unguarded_K_and_sigma_witness :
  half_positive exact_ops
  ∧ @__init__ (fp R) (-1)
    = {| K := (-1)%Z; mus := None; sigmas := None; pi := None |}
  ∧ ((@log_prob (fp R) (fp_backend exact_ops) (__init__ 1) script_data
        empty_graph).1.1 collapsed_store
        {| feed_X := [[Fin 1%R]]; feed_y := [[Fin 5%R]] |} = NInf
     ∨ (@log_prob (fp R) (fp_backend exact_ops) (__init__ 1) script_data
          empty_graph).1.1 collapsed_store
          {| feed_X := [[Fin 1%R]]; feed_y := [[Fin 5%R]] |} = NaN).
Proof.
  split; [exact exact_half_positive |].
  destruct (unguarded_K_and_sigma exact_ops exact_half_positive)
    as [Hinit Hsigma].
  split.
  - apply Hinit. lia.
  - apply (Hsigma (__init__ 1) script_data empty_graph collapsed_store
             {| feed_X := [[Fin 1%R]]; feed_y := [[Fin 5%R]] |} 1 1 0 0).
    + exact collapsed_store_fits.
    + reflexivity.
    + split; [reflexivity | repeat constructor].
    + split; [reflexivity | repeat constructor].
    + lia.
    + lia.
    + exact exact_zero_is_zero.
Defined.

(** ** Calls of [log_prob] and the variables they read *)

Section Calls.
Context {T : Type} `{Backend T}.

(** A sequence of calls of [log_prob] on one model object, the graph and
    the attributes of the object being threaded through. *)
Fixpoint log_prob_calls (calls : list (@data T))
    (self : @MixtureDensityNetwork T) (g : graph)
  : @MixtureDensityNetwork T * graph :=
  match calls with
  | [] => (self, g)
  | xs :: calls' =>
      let r := log_prob self xs g in log_prob_calls calls' r.1.2 r.2
  end.

(** The mixture parameters depend on the five slots of their network
    only. *)
Lemma compute_mixture_parameters_slots (θ1 θ2 : @store T) n1 n2 X :
  (∀ j, j < 5 → θ1 (n1 + j) = θ2 (n2 + j)) →
  compute_mixture_parameters θ1 n1 X = compute_mixture_parameters θ2 n2 X.
Proof.
  intros Hθ. unfold compute_mixture_parameters.
  pose proof (Hθ 0) as H0. rewrite !Nat.add_0_r in H0.
  rewrite H0, (Hθ 1), (Hθ 2), (Hθ 3), (Hθ 4) by lia. done.
Qed.

(** The value of the tensor [log_prob] returns, as a function of the
    store and of the evaluated data. *)
Lemma log_prob_value (self : @MixtureDensityNetwork T) xs g θ fd :
  (log_prob self xs g).1.1 θ fd =
    let mp := compute_mixture_parameters θ (length (layers g))
                (data_X xs θ fd) in
    mixture_log_prob (mp_pi mp) (mp_mu mp) (mp_sigma mp) (data_y xs θ fd).
Proof.
  destruct (log_prob_unfold self xs g) as (Hself & _ & Hval).
  rewrite Hval, Hself.
  destruct (neural_network_unfold self (data_X xs) g) as (_ & _ & Hm & Hs & Hp).
  by rewrite Hm, Hs, Hp.
Qed.

Lemma log_prob_graph (self : @MixtureDensityNetwork T) xs g :
  layers (log_prob self xs g).2
  = layers g ++ [25; 25; K self; K self; K self]%Z
  ∧ K (log_prob self xs g).1.2 = K self.
Proof.
  destruct (log_prob_unfold self xs g) as (Hself & Hg & _).
  rewrite Hself, Hg.
  destruct (neural_network_unfold self (data_X xs) g) as (Hl & HK & _).
  done.
Qed.

Lemma log_prob_calls_graph calls (self : @MixtureDensityNetwork T) g :
  length (layers (log_prob_calls calls self g).2)
  = length (layers g) + 5 * length calls.
Proof.
  revert self g. induction calls as [| xs calls IH]; intros self g.
  - simpl. lia.
  - cbn [log_prob_calls]. cbn zeta. rewrite IH.
    destruct (log_prob_graph self xs g) as [Hl _].
    rewrite Hl, length_app. simpl. lia.
Qed.

Lemma log_prob_calls_snoc calls xs (self : @MixtureDensityNetwork T) g :
  log_prob_calls (calls ++ [xs]) self g
  = let s := log_prob_calls calls self g in
    let r := log_prob s.1 xs s.2 in (r.1.2, r.2).
Proof.
  revert self g. induction calls as [| xs' calls IH]; intros self g.
  - done.
  - cbn [log_prob_calls app]. cbn zeta. apply IH.
Qed.

(** C10: every call of [log_prob] runs [neural_network], which adds five
    new layers to the graph and overwrites [mus], [sigmas] and [pi]; after
    any sequence of calls the attributes are the tensors of the last call;
    and of two successive calls the first reads the slots n .. n+4 of the
    store only and the second the slots n+5 .. n+9 only, so the two
    networks share no parameter. *)
Theorem log_prob_fresh_layers :
  (∀ (self : @MixtureDensityNetwork T) xs g,
     (log_prob self xs g).1.2 = (neural_network self (data_X xs) g).1
     ∧ layers (log_prob self xs g).2
       = layers g ++ [25; 25; K self; K self; K self]%Z)
  ∧ (∀ calls xs (self : @MixtureDensityNetwork T) g θ fd,
       let self' := (log_prob_calls (calls ++ [xs]) self g).1 in
       let mp := compute_mixture_parameters θ
                   (length (layers g) + 5 * length calls) (data_X xs θ fd) in
       attr (mus self') θ fd = mp_mu mp
       ∧ attr (sigmas self') θ fd = mp_sigma mp
       ∧ attr (pi self') θ fd = mp_pi mp)
  ∧ (∀ (self : @MixtureDensityNetwork T) g θ θ' fd,
       let r1 := log_prob self script_data g in
       let r2 := log_prob r1.1.2 script_data r1.2 in
       let n := length (layers g) in
       ((∀ j, j < 5 → θ (n + j) = θ' (n + j)) →
        r1.1.1 θ fd = r1.1.1 θ' fd)
       ∧ ((∀ j, j < 5 → θ (n + 5 + j) = θ' (n + 5 + j)) →
          r2.1.1 θ fd = r2.1.1 θ' fd)).
Proof.
  split; [| split].
  - intros self xs g. destruct (log_prob_unfold self xs g) as (Hself & _ & _).
    destruct (log_prob_graph self xs g) as [Hl _]. done.
  - intros calls xs self g θ fd. rewrite log_prob_calls_snoc. cbn zeta.
    cbn [fst snd].
    destruct (log_prob_unfold (log_prob_calls calls self g).1 xs
                (log_prob_calls calls self g).2) as (-> & _ & _).
    destruct (neural_network_unfold (log_prob_calls calls self g).1
                (data_X xs) (log_prob_calls calls self g).2)
      as (_ & _ & Hm & Hs & Hp).
    rewrite Hm, Hs, Hp, log_prob_calls_graph. done.
  - intros self g θ θ' fd. cbn zeta. split; intros Hθ.
    + rewrite !log_prob_value. cbn zeta. cbn [data_X data_y script_data].
      unfold placeholder_X, placeholder_y.
      by rewrite (compute_mixture_parameters_slots θ θ' _ _ _ Hθ).
    + rewrite !log_prob_value. cbn zeta. cbn [data_X data_y script_data].
      unfold placeholder_X, placeholder_y.
      destruct (log_prob_graph self script_data g) as [-> _].
      rewrite length_app. cbn [length].
      by rewrite (compute_mixture_parameters_slots θ θ' _ _ _ Hθ).
Qed.

End Calls.

Lemma log_prob_fresh_layers_witness :
  (log_prob (log_prob (__init__ 1) script_data empty_graph).1.2 script_data
     (log_prob (__init__ 1) script_data empty_graph).2).1.1
    (zero_store 1) {| feed_X := [[1%R]]; feed_y := [[0%R]] |}
  = (log_prob (log_prob (__init__ 1) script_data empty_graph).1.2 script_data
       (log_prob (__init__ 1) script_data empty_graph).2).1.1
      (λ id, if (id <? 5)%nat then zero_layer 0 0 else zero_store 1 id)
      {| feed_X := [[1%R]]; feed_y := [[0%R]] |}.
Proof.
  destruct (@log_prob_fresh_layers R R_backend) as (_ & _ & Hslots).
  apply (Hslots (__init__ 1) empty_graph (zero_store 1)
           (λ id, if (id <? 5)%nat then zero_layer 0 0 else zero_store 1 id)).
  intros j _. reflexivity.
Defined.

(** ** The training loop *)

Section Training.
Context {T : Type} `{Backend T}.

(** The loss tensor the inference built from the model, and the update
    rule of the optimizer: one step on a fed batch.  Both belong to the
    backend. *)
Variable loss : @scalar_tensor T.
Variable optimizer_step : @store T → @feed_dict T → @store T.

(** The session: the current value of the variables, and the number of
    optimizer steps applied to them so far. *)
Record session : Type := {
  variables : @store T;
  steps : nat
}.

(** Modelled from the spec: [inference.update] of [ed.MAP], which is not
    part of the example file.  "Each epoch: one optimizer step that adjusts
    network parameters", on the fed batch; the loss is reported. *)
Definition inference_update (fd : @feed_dict T) (s : session) : T * session :=
  (loss (variables s) fd,
   {| variables := optimizer_step (variables s) fd; steps := S (steps s) |}).

(** [sess.run(t, feed_dict)] on a tensor: the tensor is evaluated under
    the current variables, which it leaves as they are. *)
Definition sess_run (t : @scalar_tensor T) (fd : @feed_dict T) (s : session)
  : T * session :=
  (t (variables s) fd, s).

Definition NEPOCH : nat := 20.

(** The state of the loop: the session, the two arrays of losses and the
    lines printed. *)
Record loop_state : Type := {
  sess : session;
  train_loss : list T;
  test_loss : list T;
  printed : list (T * T)
}.

(** [np.zeros(NEPOCH)] twice, before the loop. *)
Definition loop_init (s : session) : loop_state :=
  {| sess := s;
     train_loss := replicate NEPOCH t_zero;
     test_loss := replicate NEPOCH t_zero;
     printed := [] |}.

(** The body of the loop at index [i]. *)
Definition epoch (train test : @feed_dict T) (i : nat) (st : loop_state)
  : loop_state :=
  let (info_loss, s1) := inference_update train (sess st) in
  let train_loss' := <[i := info_loss]> (train_loss st) in
  let (v, s2) := sess_run loss test s1 in
  let test_loss' := <[i := v]> (test_loss st) in
  {| sess := s2;
     train_loss := train_loss';
     test_loss := test_loss';
     printed := printed st ++ [(info_loss, v)] |}.

(** [for i in range(NEPOCH)]. *)
Definition training_loop (train test : @feed_dict T) (s : session)
  : loop_state :=
  foldl (λ st i, epoch train test i st) (loop_init s) (seq 0 NEPOCH).

Lemma epoch_session train test i st :
  sess (epoch train test i st)
  = {| variables := optimizer_step (variables (sess st)) train;
       steps := S (steps (sess st)) |}.
Proof. done. Qed.

Lemma epochs_session train test (idx : list nat) st :
  let st' := foldl (λ st i, epoch train test i st) st idx in
  steps (sess st') = steps (sess st) + length idx
  ∧ variables (sess st')
    = Nat.iter (length idx) (λ θ, optimizer_step θ train) (variables (sess st)).
Proof.
  cbn zeta. revert st. induction idx as [| i idx IH]; intros st.
  - simpl. split; [lia | done].
  - cbn [foldl length]. destruct (IH (epoch train test i st)) as [-> ->].
    rewrite epoch_session. cbn [steps variables]. split; [lia |].
    by rewrite Nat.iter_succ_r.
Qed.

(** C8: the loop runs NEPOCH = 20 epochs; an epoch applies exactly one
    optimizer step, on the training data; evaluating the loss on the test
    set leaves every variable unchanged; so the loop applies exactly 20
    steps. *)
Theorem training_loop_steps :
  NEPOCH = 20
  ∧ (∀ train test i st,
       steps (sess (epoch train test i st)) = S (steps (sess st))
       ∧ variables (sess (epoch train test i st))
         = optimizer_step (variables (sess st)) train)
  ∧ (∀ t fd s, (sess_run t fd s).2 = s)
  ∧ (∀ train test s,
       steps (sess (training_loop train test s)) = steps s + 20
       ∧ variables (sess (training_loop train test s))
         = Nat.iter 20 (λ θ, optimizer_step θ train) (variables s)
       ∧ length (printed (training_loop train test s)) = 20).
Proof.
  split; [done | split; [done | split; [done |]]].
  intros train test s. unfold training_loop.
  destruct (epochs_session train test (seq 0 NEPOCH) (loop_init s)) as [Hs Hv].
  rewrite Hs, Hv, length_seq. split; [done | split; [done |]].
  reflexivity.
Qed.

End Training.

(** ** The batch, row by row *)

Section Rows.
Context {T : Type} `{Backend T}.

(** The three heads on one input row [x], for the network in the slots
    [n], ..., [n + 4] of the store. *)
Definition hidden_row (θ : @store T) (n : nat) (x : list T) : list T :=
  map t_relu (affine (θ (n + 1)) (map t_relu (affine (θ n) x))).
Definition mu_row (θ : @store T) (n : nat) (x : list T) : list T :=
  affine (θ (n + 2)) (hidden_row θ n x).
Definition sigma_row (θ : @store T) (n : nat) (x : list T) : list T :=
  map t_exp (affine (θ (n + 3)) (hidden_row θ n x)).
Definition pi_row (θ : @store T) (n : nat) (x : list T) : list T :=
  softmax_row (affine (θ (n + 4)) (hidden_row θ n x)).

(** The Gaussian log-densities of one row, and the value lines 53-54
    compute for it. *)
Definition logpdf_row (y m s : list T) : list T :=
  broadcast t_sub
    (broadcast t_sub (map (λ _, t_norm_const) s) (map t_log s))
    (map (λ z, t_mul t_half (t_square z))
         (broadcast t_div (broadcast t_sub y m) s)).
Definition row_log_prob (p m s y : list T) : T :=
  t_log (reduce_sum (broadcast t_mul p (map t_exp (logpdf_row y m s)))).

(** The network maps every row of the batch on its own. *)
Lemma compute_mixture_parameters_rows (θ : @store T) n X :
  mp_pi (compute_mixture_parameters θ n X) = map (pi_row θ n) X
  ∧ mp_mu (compute_mixture_parameters θ n X) = map (mu_row θ n) X
  ∧ mp_sigma (compute_mixture_parameters θ n X) = map (sigma_row θ n) X.
Proof.
  unfold compute_mixture_parameters, fully_connected. cbn.
  rewrite !map_map. done.
Qed.

Lemma norm_logpdf_cons y Y m M s S :
  norm_logpdf (y :: Y) (m :: M) (s :: S)
  = logpdf_row y m s :: norm_logpdf Y M S.
Proof. done. Qed.

Lemma mixture_log_prob_cons p P m M s S y Y :
  mixture_log_prob (p :: P) (m :: M) (s :: S) (y :: Y)
  = t_add (row_log_prob p m s y) (mixture_log_prob P M S Y).
Proof. done. Qed.

Lemma mixture_log_prob_nil M S Y : mixture_log_prob [] M S Y = t_zero.
Proof. done. Qed.

(** Lines 53-55 on the parameters of a batch, as a sum over the paired
    rows of X and y. *)
Lemma mixture_log_prob_rows (θ : @store T) n X Y :
  length X = length Y →
  mixture_log_prob (map (pi_row θ n) X) (map (mu_row θ n) X)
                   (map (sigma_row θ n) X) Y
  = reduce_sum (map (λ xy, row_log_prob (pi_row θ n xy.1) (mu_row θ n xy.1)
                                        (sigma_row θ n xy.1) xy.2)
                    (zip X Y)).
Proof.
  revert Y. induction X as [| x X IH]; intros [| y Y] Hlen; try done.
  cbn [map zip zip_with]. rewrite mixture_log_prob_cons.
  rewrite IH by (simpl in Hlen; lia). done.
Qed.

(** The value of the tensor of [log_prob] on the fed batch. *)
Lemma log_prob_script_value (self : @MixtureDensityNetwork T) g θ fd :
  (log_prob self script_data g).1.1 θ fd
  = mixture_log_prob (map (pi_row θ (length (layers g))) (feed_X fd))
                     (map (mu_row θ (length (layers g))) (feed_X fd))
                     (map (sigma_row θ (length (layers g))) (feed_X fd))
                     (feed_y fd).
Proof.
  destruct (log_prob_unfold self script_data g) as (Hself & _ & Hval).
  rewrite Hval, Hself.
  destruct (neural_network_unfold self (data_X script_data) g)
    as (_ & _ & Hm & Hs & Hp).
  rewrite Hm, Hs, Hp.
  destruct (compute_mixture_parameters_rows θ (length (layers g))
              (data_X script_data θ fd)) as (-> & -> & ->).
  done.
Qed.

End Rows.

(** ** Batches: empty, concatenated, reordered *)

Section Batches.
Context {T : Type} `{Backend T}.

(** X1: The parameters of a concatenated batch are the parameters of its two
    parts, one after the other: no row influences another. *)
Theorem mixture_parameters_concat (self : @MixtureDensityNetwork T) g θ
    X1 X2 y y1 y2 :
  let pi' := attr (pi (neural_network self placeholder_X g).1) θ in
  let mus' := attr (mus (neural_network self placeholder_X g).1) θ in
  let sigmas' := attr (sigmas (neural_network self placeholder_X g).1) θ in
  pi' {| feed_X := X1 ++ X2; feed_y := y |}
  = pi' {| feed_X := X1; feed_y := y1 |} ++ pi' {| feed_X := X2; feed_y := y2 |}
  ∧ mus' {| feed_X := X1 ++ X2; feed_y := y |}
    = mus' {| feed_X := X1; feed_y := y1 |}
      ++ mus' {| feed_X := X2; feed_y := y2 |}
  ∧ sigmas' {| feed_X := X1 ++ X2; feed_y := y |}
    = sigmas' {| feed_X := X1; feed_y := y1 |}
      ++ sigmas' {| feed_X := X2; feed_y := y2 |}.
Proof.
  cbn zeta.
  destruct (neural_network_unfold self placeholder_X g)
    as (_ & _ & Hm & Hs & Hp).
  rewrite !Hm, !Hs, !Hp. unfold placeholder_X. cbn [feed_X].
  destruct (compute_mixture_parameters_rows θ (length (layers g)) (X1 ++ X2))
    as (-> & -> & ->).
  destruct (compute_mixture_parameters_rows θ (length (layers g)) X1)
    as (-> & -> & ->).
  destruct (compute_mixture_parameters_rows θ (length (layers g)) X2)
    as (-> & -> & ->).
  by rewrite !map_app.
Qed.

(** On a batch without rows the sum of line 55 is empty: the value is the
    zero of the backend, whatever the parameters. *)
Theorem log_prob_empty_batch (self : @MixtureDensityNetwork T) g θ :
  (log_prob self script_data g).1.1 θ {| feed_X := []; feed_y := [] |}
  = t_zero.
Proof. by rewrite log_prob_script_value. Qed.

End Batches.

Section RealBatches.
Open Scope R_scope.

Lemma reduce_sum_app (l1 l2 : list R) :
  reduce_sum (l1 ++ l2) = reduce_sum l1 + reduce_sum l2.
Proof.
  induction l1 as [| x l1 IH]; unfold reduce_sum in *; simpl in *; [lra |].
  rewrite IH. lra.
Qed.

(** One row of the sum of line 55. *)
Definition row_term (θ : @store R) (n : nat) (xy : list R * list R) : R :=
  row_log_prob (pi_row θ n xy.1) (mu_row θ n xy.1) (sigma_row θ n xy.1) xy.2.

Lemma log_prob_row_terms (self : @MixtureDensityNetwork R) g θ X Y :
  length X = length Y →
  (log_prob self script_data g).1.1 θ {| feed_X := X; feed_y := Y |}
  = reduce_sum (map (row_term θ (length (layers g))) (zip X Y)).
Proof.
  intros Hlen. rewrite log_prob_script_value. cbn [feed_X feed_y].
  by rewrite mixture_log_prob_rows.
Qed.

Lemma log_prob_single_row (self : @MixtureDensityNetwork R) g θ x y :
  (log_prob self script_data g).1.1 θ {| feed_X := [x]; feed_y := [y] |}
  = row_term θ (length (layers g)) (x, y).
Proof.
  rewrite log_prob_row_terms by done. unfold reduce_sum. simpl. lra.
Qed.

(** X2: The log-likelihood of a batch is the sum of the log-likelihoods of its
    rows, each evaluated as a batch of one row. *)
Theorem log_prob_sum_of_rows (self : @MixtureDensityNetwork R) g θ X Y :
  length X = length Y →
  (log_prob self script_data g).1.1 θ {| feed_X := X; feed_y := Y |}
  = reduce_sum
      (map (λ xy, (log_prob self script_data g).1.1 θ
                    {| feed_X := [xy.1]; feed_y := [xy.2] |})
           (zip X Y)).
Proof.
  intros Hlen. rewrite log_prob_row_terms by done.
  apply reduce_sum_ext. intros [x y] _. by rewrite log_prob_single_row.
Qed.

Lemma log_prob_sum_of_rows_witness :
  (log_prob (__init__ 2) script_data empty_graph).1.1 (zero_store 2)
    {| feed_X := [[1]; [3]]; feed_y := [[0]; [4]] |}
  = reduce_sum
      (map (λ xy, (log_prob (__init__ 2) script_data empty_graph).1.1
                    (zero_store 2)
                    {| feed_X := [xy.1]; feed_y := [xy.2] |})
           (zip [[1]; [3]] [[0]; [4]])).
Proof.
  apply (log_prob_sum_of_rows (__init__ 2) empty_graph (zero_store 2)
           [[1]; [3]] [[0]; [4]]).
  reflexivity.
Defined.

(** X3: The log-likelihood of two batches put together is the sum of their
    log-likelihoods. *)
Theorem log_prob_concat (self : @MixtureDensityNetwork R) g θ X1 Y1 X2 Y2 :
  length X1 = length Y1 → length X2 = length Y2 →
  (log_prob self script_data g).1.1 θ
    {| feed_X := X1 ++ X2; feed_y := Y1 ++ Y2 |}
  = (log_prob self script_data g).1.1 θ {| feed_X := X1; feed_y := Y1 |}
    + (log_prob self script_data g).1.1 θ {| feed_X := X2; feed_y := Y2 |}.
Proof.
  intros H1 H2.
  rewrite !log_prob_row_terms by (rewrite ?length_app; congruence).
  rewrite zip_with_app by done. by rewrite map_app, reduce_sum_app.
Qed.

Lemma log_prob_concat_witness :
  (log_prob (__init__ 2) script_data empty_graph).1.1 (zero_store 2)
    {| feed_X := [[1]] ++ [[3]]; feed_y := [[0]] ++ [[4]] |}
  = (log_prob (__init__ 2) script_data empty_graph).1.1 (zero_store 2)
      {| feed_X := [[1]]; feed_y := [[0]] |}
    + (log_prob (__init__ 2) script_data empty_graph).1.1 (zero_store 2)
        {| feed_X := [[3]]; feed_y := [[4]] |}.
Proof.
  apply (log_prob_concat (__init__ 2) empty_graph (zero_store 2)
           [[1]] [[0]] [[3]] [[4]]); reflexivity.
Defined.

(** X4: Reordering the rows of the batch, X and y together, does not change
    the log-likelihood. *)
Theorem log_prob_row_order (self : @MixtureDensityNetwork R) g θ
    (rows rows' : list (list R * list R)) :
  rows ≡ₚ rows' →
  (log_prob self script_data g).1.1 θ
    {| feed_X := rows.*1; feed_y := rows.*2 |}
  = (log_prob self script_data g).1.1 θ
      {| feed_X := rows'.*1; feed_y := rows'.*2 |}.
Proof.
  intros Hp.
  rewrite !log_prob_row_terms by (by rewrite !length_fmap).
  rewrite !zip_fst_snd. apply reduce_sum_perm. by apply fmap_Permutation.
Qed.

Lemma log_prob_row_order_witness :
  (log_prob (__init__ 2) script_data empty_graph).1.1 (zero_store 2)
    {| feed_X := [([1], [0]); ([3], [4])].*1;
       feed_y := [([1], [0]); ([3], [4])].*2 |}
  = (log_prob (__init__ 2) script_data empty_graph).1.1 (zero_store 2)
      {| feed_X := [([3], [4]); ([1], [0])].*1;
         feed_y := [([3], [4]); ([1], [0])].*2 |}.
Proof.
  apply (log_prob_row_order (__init__ 2) empty_graph (zero_store 2)
           [([1], [0]); ([3], [4])] [([3], [4]); ([1], [0])]).
  apply perm_swap.
Defined.

End RealBatches.

(** ** What a sequence of calls keeps *)

Section CallInvariants.
Context {T : Type} `{Backend T}.

(** X5: K is fixed at construction: no sequence of calls of [log_prob]
    changes it. *)
Theorem log_prob_calls_keep_K calls (self : @MixtureDensityNetwork T) g :
  K (log_prob_calls calls self g).1 = K self.
Proof.
  revert self g. induction calls as [| xs calls IH]; intros self g.
  - done.
  - cbn [log_prob_calls]. cbn zeta. rewrite IH.
    by destruct (log_prob_graph self xs g) as [_ ->].
Qed.

(** X6: The graph only grows: the layers that existed before a sequence of
    calls are still there, in place, followed by five new layers of widths
    25, 25, K, K, K for every call. *)
Theorem log_prob_calls_append_only calls (self : @MixtureDensityNetwork T) g :
  layers (log_prob_calls calls self g).2
  = layers g
    ++ mjoin (replicate (length calls) [25; 25; K self; K self; K self]%Z).
Proof.
  revert self g. induction calls as [| xs calls IH]; intros self g.
  - simpl. by rewrite app_nil_r.
  - cbn [log_prob_calls length replicate]. cbn zeta. rewrite IH.
    destruct (log_prob_graph self xs g) as [-> ->].
    by rewrite <- app_assoc.
Qed.

(** X7: The tensors for prediction (lines 96-97) read the placeholder X only:
    whatever is fed for y, they evaluate to the same batches. *)
Theorem prediction_reads_X_only (self : @MixtureDensityNetwork T) g θ fd fd' :
  feed_X fd = feed_X fd' →
  attr (pi (log_prob self script_data g).1.2) θ fd
  = attr (pi (log_prob self script_data g).1.2) θ fd'
  ∧ attr (mus (log_prob self script_data g).1.2) θ fd
    = attr (mus (log_prob self script_data g).1.2) θ fd'
  ∧ attr (sigmas (log_prob self script_data g).1.2) θ fd
    = attr (sigmas (log_prob self script_data g).1.2) θ fd'.
Proof.
  intros HX.
  destruct (log_prob_unfold self script_data g) as (-> & _ & _).
  destruct (neural_network_unfold self (data_X script_data) g)
    as (_ & _ & Hm & Hs & Hp).
  rewrite !Hm, !Hs, !Hp. cbn [data_X script_data]. unfold placeholder_X.
  by rewrite HX.
Qed.

End CallInvariants.

Lemma prediction_reads_X_only_witness :
  attr (pi (log_prob (__init__ 1) script_data empty_graph).1.2) (zero_store 1)
    {| feed_X := [[1%R]]; feed_y := [[0%R]] |}
  = attr (pi (log_prob (__init__ 1) script_data empty_graph).1.2)
      (zero_store 1) {| feed_X := [[1%R]]; feed_y := [] |}
  ∧ attr (mus (log_prob (__init__ 1) script_data empty_graph).1.2)
      (zero_store 1) {| feed_X := [[1%R]]; feed_y := [[0%R]] |}
    = attr (mus (log_prob (__init__ 1) script_data empty_graph).1.2)
        (zero_store 1) {| feed_X := [[1%R]]; feed_y := [] |}
  ∧ attr (sigmas (log_prob (__init__ 1) script_data empty_graph).1.2)
      (zero_store 1) {| feed_X := [[1%R]]; feed_y := [[0%R]] |}
    = attr (sigmas (log_prob (__init__ 1) script_data empty_graph).1.2)
        (zero_store 1) {| feed_X := [[1%R]]; feed_y := [] |}.
Proof.
  apply (prediction_reads_X_only (__init__ 1) empty_graph (zero_store 1)
           {| feed_X := [[1%R]]; feed_y := [[0%R]] |}
           {| feed_X := [[1%R]]; feed_y := [] |}).
  reflexivity.
Defined.

(** ** The weights as probabilities, and the argument of the log *)

Section RealRanges.
Open Scope R_scope.

Lemma reduce_sum_ge_elem (l : list R) x :
  Forall (λ v, 0 <= v) l → x ∈ l → x <= reduce_sum l.
Proof.
  intros Hl. induction Hl as [| v l Hv Hl IH]; intros Hin.
  - by apply elem_of_nil in Hin.
  - assert (0 <= reduce_sum l).
    { clear IH Hin. induction Hl as [| w l Hw _ IH];
        unfold reduce_sum in *; simpl in *; lra. }
    unfold reduce_sum in *. simpl in *.
    apply elem_of_cons in Hin as [-> | Hin]; [lra |].
    specialize (IH Hin). lra.
Qed.

(** X8: Every mixture weight is a probability: strictly positive and at most
    1, for K >= 1. *)
Theorem pi_is_probability (self : @MixtureDensityNetwork R) X g θ fd k i j :
  (1 ≤ k)%nat → K self = Z.of_nat k →
  store_fits θ (neural_network self X g).2 →
  (i < length (X θ fd))%nat → (j < k)%nat →
  0 < entry (attr (pi (neural_network self X g).1) θ fd) i j <= 1.
Proof.
  intros Hk HK Hfit Hi Hj.
  pose proof (pi_rows_sum_to_one self X g θ fd k i Hk HK Hfit Hi) as Hsum.
  destruct (neural_network_unfold self X g) as (_ & _ & _ & _ & Hp).
  destruct (store_fits_heads θ self X g k Hfit HK) as (Lm & Ls & Lp).
  destruct (mixture_parameters_shape θ (length (layers g)) (X θ fd) k Lm Ls Lp)
    as (Sp & _ & _).
  rewrite Hp in *.
  set (P := mp_pi (compute_mixture_parameters θ (length (layers g)) (X θ fd)))
    in *.
  assert (Hpos : ∀ j', (j' < k)%nat → 0 < entry P i j').
  { intros j' Hj'.
    apply (entry_Forall (λ x, 0 < x) P (length (X θ fd)) k i j' Sp); try done.
    by apply (pi_positive θ (length (layers g)) (X θ fd) k). }
  split; [by apply Hpos |].
  rewrite <- Hsum. unfold big_sum. apply reduce_sum_ge_elem.
  - apply Forall_fmap, Forall_forall. intros j' Hj'. simpl.
    apply elem_of_seq in Hj'. left. apply Hpos. lia.
  - apply list_elem_of_fmap. exists j. split; [done |].
    apply elem_of_seq. lia.
Qed.

Lemma pi_is_probability_witness :
  0 < entry (attr (pi (neural_network (__init__ 2) placeholder_X
                         empty_graph).1) (zero_store 2)
                  {| feed_X := [[1]; [3]]; feed_y := [] |}) 1 0 <= 1.
Proof.
  apply (pi_is_probability (__init__ 2) placeholder_X empty_graph
           (zero_store 2) {| feed_X := [[1]; [3]]; feed_y := [] |} 2 1 0).
  - lia.
  - reflexivity.
  - apply (zero_store_fits 2).
  - simpl. lia.
  - lia.
Defined.

(** X9: The argument of the log on line 54 is strictly positive in every row,
    for K >= 1: in exact arithmetic the log of line 54 is never taken at
    zero. *)
Theorem log_argument_positive (self : @MixtureDensityNetwork R) g θ fd N k :
  (1 ≤ k)%nat → K self = Z.of_nat k →
  store_fits θ (log_prob self script_data g).2 →
  length (feed_X fd) = N → shape (feed_y fd) N 1 →
  Forall (λ v, 0 < v)
    (reduce_sum_1
       (elementwise t_mul
          (attr (pi (log_prob self script_data g).1.2) θ fd)
          (map (map t_exp)
             (norm_logpdf (feed_y fd)
                (attr (mus (log_prob self script_data g).1.2) θ fd)
                (attr (sigmas (log_prob self script_data g).1.2) θ fd))))).
Proof.
  intros Hk HK Hfit HN Hy.
  destruct (log_prob_unfold self script_data g) as (Hself & Hg & _).
  rewrite Hself. rewrite Hg in Hfit.
  destruct (neural_network_unfold self (data_X script_data) g)
    as (_ & _ & Hm & Hs & Hp).
  rewrite Hm, Hs, Hp. cbn [data_X script_data]. unfold placeholder_X.
  destruct (store_fits_heads θ self placeholder_X g k Hfit HK) as (Lm & Ls & Lp).
  destruct (mixture_parameters_shape θ (length (layers g)) (feed_X fd) k
              Lm Ls Lp) as (Sp & Sm & Ss).
  rewrite HN in Sp, Sm, Ss.
  pose proof (pi_positive θ (length (layers g)) (feed_X fd) k Lp Hk) as Hpos.
  set (mp := compute_mixture_parameters θ (length (layers g)) (feed_X fd)) in *.
  assert (Hpe : ∀ i j, (i < N)%nat → (j < k)%nat → 0 < entry (mp_pi mp) i j).
  { intros i j Hi Hj.
    by apply (entry_Forall (λ x, 0 < x) (mp_pi mp) N k i j Sp). }
  rewrite (shape_mk_matrix (mp_pi mp) N k Sp),
          (shape_mk_matrix (mp_mu mp) N k Sm),
          (shape_mk_matrix (mp_sigma mp) N k Ss), (shape_column (feed_y fd) N Hy).
  rewrite norm_logpdf_entries, map_mk_matrix, elementwise_same.
  unfold reduce_sum_1, mk_matrix. rewrite map_map.
  apply Forall_fmap, Forall_forall. intros i Hi. apply elem_of_seq in Hi.
  simpl. apply reduce_sum_pos.
  - destruct k; [lia | done].
  - apply Forall_fmap, Forall_forall. intros j Hj. apply elem_of_seq in Hj.
    simpl. apply Rmult_lt_0_compat; [apply Hpe; lia | apply exp_pos].
Qed.

Lemma log_argument_positive_witness :
  Forall (λ v, 0 < v)
    (reduce_sum_1
       (elementwise t_mul
          (attr (pi (log_prob (__init__ 2) script_data empty_graph).1.2)
                (zero_store 2) {| feed_X := [[1]]; feed_y := [[0]] |})
          (map (map t_exp)
             (norm_logpdf [[0]]
                (attr (mus (log_prob (__init__ 2) script_data empty_graph).1.2)
                      (zero_store 2) {| feed_X := [[1]]; feed_y := [[0]] |})
                (attr (sigmas (log_prob (__init__ 2) script_data
                                 empty_graph).1.2)
                      (zero_store 2) {| feed_X := [[1]]; feed_y := [[0]] |}))))).
Proof.
  apply (log_argument_positive (__init__ 2) empty_graph (zero_store 2)
           {| feed_X := [[1]]; feed_y := [[0]] |} 1 2).
  - lia.
  - reflexivity.
  - apply (zero_store_fits 2).
  - reflexivity.
  - split; [reflexivity | repeat constructor].
Defined.

End RealRanges.

(** ** A NaN among the targets *)

Section NaNTarget.
Context {F : Type} (ops : finite_ops F).
#[local] Instance fp_backend_nan : Backend (fp F) := fp_backend ops.

Lemma fp_sub_NaN_r (a : fp F) : fp_sub ops a NaN = NaN.
Proof. by destruct a. Qed.

Lemma logpdf_entry_NaN_target (loc s : fp F) : logpdf_entry NaN loc s = NaN.
Proof.
  unfold logpdf_entry, t_square. cbn. apply fp_sub_NaN_r.
Qed.

(** X10: One NaN target makes the loss of the whole batch a NaN, for K >= 1 and
    whatever the rounding of the finite arithmetic. *)
Theorem nan_target_poisons_log_prob (self : @MixtureDensityNetwork (fp F))
    g θ fd N k i :
  1 ≤ k → K self = Z.of_nat k →
  store_fits θ (log_prob self script_data g).2 →
  length (feed_X fd) = N → shape (feed_y fd) N 1 →
  i < N → entry (feed_y fd) i 0 = NaN →
  (log_prob self script_data g).1.1 θ fd = NaN.
Proof.
  intros Hk HK Hfit HN Hy Hi Hnan.
  destruct (log_prob_unfold self script_data g) as (Hself & Hg & Hval).
  rewrite Hval, Hself. rewrite Hg in Hfit.
  destruct (neural_network_unfold self (data_X script_data) g)
    as (_ & _ & Hm & Hs & Hp).
  rewrite Hm, Hs, Hp. cbn [data_X data_y script_data].
  unfold placeholder_X, placeholder_y.
  destruct (store_fits_heads θ self placeholder_X g k Hfit HK) as (Lm & Ls & Lp).
  destruct (mixture_parameters_shape θ (length (layers g)) (feed_X fd) k
              Lm Ls Lp) as (Sp & Sm & Ss).
  rewrite HN in Sp, Sm, Ss.
  set (mp := compute_mixture_parameters θ (length (layers g)) (feed_X fd)) in *.
  rewrite (shape_mk_matrix (mp_pi mp) N k Sp),
          (shape_mk_matrix (mp_mu mp) N k Sm),
          (shape_mk_matrix (mp_sigma mp) N k Ss), (shape_column (feed_y fd) N Hy).
  rewrite mixture_log_prob_entries.
  apply (reduce_sum_NaN ops). apply list_elem_of_fmap. exists i.
  split; [| apply elem_of_seq; lia].
  rewrite (reduce_sum_NaN ops (map _ (seq 0 k))); [done |].
  apply list_elem_of_fmap. exists 0. split; [| apply elem_of_seq; lia].
  rewrite Hnan, logpdf_entry_NaN_target. cbn.
  by rewrite (fp_mul_NaN_r ops).
Qed.

End NaNTarget.

Lemma nan_target_poisons_log_prob_witness :
  (@log_prob (fp R) (fp_backend exact_ops) (__init__ 1) script_data
     empty_graph).1.1 collapsed_store
     {| feed_X := [[Fin 1%R]; [Fin 2%R]]; feed_y := [[Fin 5%R]; [NaN]] |}
  = NaN.
Proof.
  apply (nan_target_poisons_log_prob exact_ops (__init__ 1) empty_graph
           collapsed_store
           {| feed_X := [[Fin 1%R]; [Fin 2%R]]; feed_y := [[Fin 5%R]; [NaN]] |}
           2 1 1).
  - lia.
  - reflexivity.
  - exact collapsed_store_fits.
  - reflexivity.
  - split; [reflexivity | repeat constructor].
  - lia.
  - reflexivity.
Defined.

(** ** What the training loop records *)

Section TrainingRecords.
Context {T : Type} `{Backend T}.
Context (loss : @scalar_tensor T).
Context (optimizer_step : @store T → @feed_dict T → @store T).

(** The variables after [m] optimizer steps on the training batch. *)
Definition variables_after (train : @feed_dict T) (θ : @store T) (m : nat)
  : @store T :=
  Nat.iter m (λ θ, optimizer_step θ train) θ.

(** X11: The held-out data never reach the parameters: the variables at the end
    of the loop are the same whatever test batch is evaluated. *)
Theorem test_set_never_trains train test test' s :
  variables (sess (training_loop loss optimizer_step train test s))
  = variables (sess (training_loop loss optimizer_step train test' s)).
Proof.
  unfold training_loop.
  destruct (epochs_session loss optimizer_step train test (seq 0 NEPOCH)
              (loop_init s)) as [_ ->].
  destruct (epochs_session loss optimizer_step train test' (seq 0 NEPOCH)
              (loop_init s)) as [_ ->].
  done.
Qed.

(** The state after the first [m] epochs. *)
Lemma epochs_records train test s m :
  m ≤ NEPOCH →
  let st := foldl (λ st i, epoch loss optimizer_step train test i st)
                  (loop_init s) (seq 0 m) in
  variables (sess st) = variables_after train (variables s) m
  ∧ length (train_loss st) = NEPOCH
  ∧ length (test_loss st) = NEPOCH
  ∧ length (printed st) = m
  ∧ ∀ i, i < m →
      train_loss st !! i
      = Some (loss (variables_after train (variables s) i) train)
      ∧ test_loss st !! i
        = Some (loss (variables_after train (variables s) (S i)) test)
      ∧ printed st !! i
        = Some (loss (variables_after train (variables s) i) train,
                loss (variables_after train (variables s) (S i)) test).
Proof.
  induction m as [| m IH]; intros Hm; cbn zeta.
  - simpl. repeat split; try done; intros; lia.
  - rewrite seq_S, foldl_app. cbn [foldl Nat.add].
    destruct IH as (Hv & Ltr & Lte & Lpr & Hrec); [lia |].
    set (st := foldl _ (loop_init s) (seq 0 m)) in *.
    unfold epoch, inference_update, sess_run.
    cbn [sess train_loss test_loss printed variables].
    rewrite !length_insert, length_app, Hv. cbn [length].
    split; [done | split; [done | split; [done | split; [lia |]]]].
    intros i Hi. destruct (decide (i = m)) as [-> | Hne].
    + rewrite !list_lookup_insert_eq by lia.
      rewrite lookup_app_r by lia. rewrite Lpr, Nat.sub_diag. done.
    + rewrite !list_lookup_insert_ne by done.
      rewrite lookup_app_l by lia. apply Hrec. lia.
Qed.

(** X12: At the end of the loop every slot of the two arrays has been written:
    slot [i] of [test_loss] holds the loss on the test batch under the
    variables after [i + 1] optimizer steps, slot [i] of [train_loss] the
    loss the [i]-th update reported, and line [i] of the output shows that
    pair. *)
Theorem training_loop_records train test s i :
  i < NEPOCH →
  let st := training_loop loss optimizer_step train test s in
  let reported :=
    (inference_update loss optimizer_step train
       {| variables := variables_after train (variables s) i;
          steps := steps s + i |}).1 in
  let evaluated := loss (variables_after train (variables s) (S i)) test in
  length (train_loss st) = NEPOCH ∧ length (test_loss st) = NEPOCH
  ∧ train_loss st !! i = Some reported
  ∧ test_loss st !! i = Some evaluated
  ∧ printed st !! i = Some (reported, evaluated).
Proof.
  intros Hi. cbn zeta. unfold training_loop.
  destruct (epochs_records train test s NEPOCH (le_n _))
    as (_ & Ltr & Lte & _ & Hrec).
  destruct (Hrec i Hi) as (Htr & Hte & Hpr).
  rewrite Htr, Hte, Hpr. done.
Qed.

End TrainingRecords.

Lemma training_loop_records_witness :
  let st := training_loop (λ θ (fd : @feed_dict R), 0%R) (λ θ fd, θ)
              {| feed_X := [[1%R]]; feed_y := [[0%R]] |}
              {| feed_X := [[2%R]]; feed_y := [[1%R]] |}
              {| variables := zero_store 1; steps := 0 |} in
  length (train_loss st) = NEPOCH ∧ length (test_loss st) = NEPOCH
  ∧ train_loss st !! 19 = Some 0%R
  ∧ test_loss st !! 19 = Some 0%R
  ∧ printed st !! 19 = Some (0%R, 0%R).
Proof.
  apply (training_loop_records (λ θ (fd : @feed_dict R), 0%R) (λ θ fd, θ)
           {| feed_X := [[1%R]]; feed_y := [[0%R]] |}
           {| feed_X := [[2%R]]; feed_y := [[1%R]] |}
           {| variables := zero_store 1; steps := 0 |} 19).
  unfold NEPOCH. lia.
Defined.

(** ** The toy dataset *)

Section ToyDataset.
Open Scope R_scope.

(** [.T] on a rank-2 array. *)
Fixpoint transpose (M : @matrix R) : @matrix R :=
  match M with
  | [] => []
  | r :: M' =>
      match M' with
      | [] => map (λ x, [x]) r
      | _ => zip_with cons r (transpose M')
      end
  end.

(** The random generator and the splitter, which the script takes from
    numpy and scikit-learn: [random_uniform lo hi n k] is a sample of shape
    (n, k) with entries between [lo] and [hi], [random_normal n k] a sample
    of shape (n, k). *)
Variable random_uniform : R → R → nat → nat → @matrix R.
Variable random_normal : nat → nat → @matrix R.
Variable train_test_split :
  @matrix R → @matrix R → @matrix R * @matrix R * @matrix R * @matrix R.

Definition y_data (N : nat) : @matrix R :=
  transpose (random_uniform (- (21 / 2)) (21 / 2) 1 N).

Definition r_data (N : nat) : @matrix R := random_normal N 1.

(** [sin(0.75 * y_data) * 7.0 + y_data * 0.5 + r_data * 1.0]; the casts to
    single precision are the identity in exact arithmetic. *)
Definition x_data (N : nat) : @matrix R :=
  elementwise Rplus
    (elementwise Rplus
       (map (map (λ v, v * 7))
            (map (map sin) (map (map (λ v, 3 / 4 * v)) (y_data N))))
       (map (map (λ v, v * / 2)) (y_data N)))
    (map (map (λ v, v * 1)) (r_data N)).

Definition build_toy_dataset (N : nat)
  : @matrix R * @matrix R * @matrix R * @matrix R :=
  train_test_split (x_data N) (y_data N).

Hypothesis random_uniform_shape :
  ∀ lo hi n k, shape (random_uniform lo hi n k) n k.
Hypothesis random_uniform_range :
  ∀ lo hi n k i j, lo <= hi → (i < n)%nat → (j < k)%nat →
    lo <= entry (random_uniform lo hi n k) i j <= hi.
Hypothesis random_normal_shape : ∀ n k, shape (random_normal n k) n k.

Lemma transpose_row (M : @matrix R) N :
  shape M 1 N →
  transpose M = map (λ i, [entry M 0 i]) (seq 0 N).
Proof.
  intros [Hlen Hrows]. destruct M as [| r [| r' M]]; try done.
  apply Forall_inv in Hrows. simpl. unfold entry. simpl.
  rewrite (list_as_map r) at 1. rewrite map_map, Hrows. done.
Qed.

Lemma y_data_column N :
  y_data N
  = mk_matrix (seq 0 N) (seq 0 1)
      (λ i _, entry (random_uniform (- (21 / 2)) (21 / 2) 1 N) 0 i).
Proof. unfold y_data. by rewrite (transpose_row _ N). Qed.

(** X13: The data handed to the splitter: two columns of N rows; in row [i] the
    target is the [i]-th uniform draw, between -10.5 and 10.5, and the
    feature is 7 sin(0.75 y) + 0.5 y plus the [i]-th normal draw, so that
    feature and noise differ by at most 12.25. *)
Theorem toy_dataset_rows N :
  build_toy_dataset N = train_test_split (x_data N) (y_data N)
  ∧ shape (x_data N) N 1 ∧ shape (y_data N) N 1
  ∧ ∀ i, (i < N)%nat →
      let y := entry (y_data N) i 0 in
      let r := entry (random_normal N 1) i 0 in
      y = entry (random_uniform (- (21 / 2)) (21 / 2) 1 N) 0 i
      ∧ - (21 / 2) <= y <= 21 / 2
      ∧ entry (x_data N) i 0 = sin (3 / 4 * y) * 7 + y * / 2 + r * 1
      ∧ Rabs (entry (x_data N) i 0 - r) <= 49 / 4.
Proof.
  split; [done |].
  assert (Hx : x_data N
    = mk_matrix (seq 0 N) (seq 0 1) (λ i j,
        sin (3 / 4 * entry (random_uniform (- (21 / 2)) (21 / 2) 1 N) 0 i) * 7
        + entry (random_uniform (- (21 / 2)) (21 / 2) 1 N) 0 i * / 2
        + entry (random_normal N 1) i j * 1)).
  { unfold x_data, r_data. rewrite y_data_column.
    rewrite (shape_mk_matrix (random_normal N 1) N 1) at 1
      by apply random_normal_shape.
    by rewrite !map_mk_matrix, !elementwise_same. }
  split; [| split].
  - rewrite Hx. pose proof (mk_matrix_shape (T := R) (seq 0 N) (seq 0 1)) as Hs.
    rewrite length_seq in Hs. apply Hs.
  - rewrite y_data_column.
    pose proof (mk_matrix_shape (T := R) (seq 0 N) (seq 0 1)) as Hs.
    rewrite length_seq in Hs. apply Hs.
  - intros i Hi. cbn zeta.
    rewrite Hx, y_data_column, !entry_mk_matrix by lia.
    pose proof (random_uniform_range (- (21 / 2)) (21 / 2) 1 N 0 i) as Hr.
    specialize (Hr ltac:(lra) ltac:(lia) Hi).
    split; [done | split; [done | split; [done |]]].
    pose proof (SIN_bound
      (3 / 4 * entry (random_uniform (- (21 / 2)) (21 / 2) 1 N) 0 i)) as Hsin.
    apply Rabs_le. lra.
Qed.

End ToyDataset.

(** A sampler that returns one value everywhere, to run the dataset on. *)
Definition constant_sample (v : R) (n k : nat) : @matrix R :=
  replicate n (replicate k v).

Lemma constant_sample_shape v n k : shape (constant_sample v n k) n k.
Proof.
  split.
  - apply length_replicate.
  - apply Forall_replicate, length_replicate.
Qed.

Lemma constant_sample_entry v n k i j :
  i < n → j < k → entry (constant_sample v n k) i j = v.
Proof.
  intros Hi Hj. unfold entry, constant_sample.
  rewrite (nth_lookup _ i []), lookup_replicate_2 by done. simpl.
  by rewrite (nth_lookup _ j), lookup_replicate_2.
Qed.

Lemma toy_dataset_rows_witness :
  shape (x_data (λ lo hi n k, constant_sample lo n k)
                (λ n k, constant_sample 0 n k) 2) 2 1
  ∧ shape (y_data (λ lo hi n k, constant_sample lo n k) 2) 2 1.
Proof.
  destruct (toy_dataset_rows (λ lo hi n k, constant_sample lo n k)
              (λ n k, constant_sample 0 n k) (λ x y, (x, [], y, [])))
    with (N := 2) as (_ & Hx & Hy & _).
  - intros lo hi n k. apply constant_sample_shape.
  - intros lo hi n k i j Hle Hi Hj.
    rewrite constant_sample_entry by done. lra.
  - intros n k. apply constant_sample_shape.
  - split; [exact Hx | exact Hy].
Defined.

(** ** Single precision: the exponential underflows *)

(** The finite arithmetic of [exact_ops] with one effect of binary32 added:
    the exponential of a number below -104 is 0, since exp(-104) is less
    than 2^-150, half the smallest positive number of the format.  Every
    other operation is left exact. *)
Definition underflow_ops : finite_ops R := {|
  f_is_zero := λ x, if Req_dec_T x 0 then true else false;
  f_is_neg := λ x, if Rlt_dec x 0 then true else false;
  f_zero := λ _, 0%R;
  f_add := λ x y, Fin (x + y)%R;
  f_sub := λ x y, Fin (x - y)%R;
  f_mul := λ x y, Fin (x * y)%R;
  f_div := λ x y, Fin (x / y)%R;
  f_exp := λ x, if Rlt_dec x (-104) then Fin 0%R else Fin (exp x);
  f_log := λ x, Fin (ln x);
  f_relu := λ x, Rmax x 0;
  f_half := (/ 2)%R;
  f_norm_const := (- / 2 * ln (2 * PI))%R
|}.

(** A store for K = 1 with every weight and bias zero, except the bias [b]
    of the [sigmas] head (slot 3). *)
Definition underflow_store (b : R) : @store (fp R) :=
  λ id, match id with
        | 0 => flat_layer 1 25 (Fin 0%R) (Fin 0%R)
        | 1 => flat_layer 25 25 (Fin 0%R) (Fin 0%R)
        | 3 => flat_layer 25 1 (Fin 0%R) (Fin b)
        | _ => flat_layer 25 1 (Fin 0%R) (Fin 0%R)
        end.


(** The real number a finite entry stands for. *)
Definition fp_value (v : fp R) : R :=
  match v with Fin x => x | _ => 0%R end.
Definition real_batch (M : @matrix (fp R)) : @matrix R :=
  map (map fp_value) M.

Section Underflow.
Open Scope R_scope.
#[local] Instance underflow_backend : Backend (fp R) :=
  fp_backend underflow_ops.

(** The log-likelihood of a single Gaussian with mean mu[:,0] and standard
    deviation sigma[:,0], as the backend computes it. *)
Definition gaussian_log_prob (mus sigmas y : @matrix (fp R)) : fp R :=
  reduce_sum
    (reduce_sum_1 (norm_logpdf y (map (take 1) mus) (map (take 1) sigmas))).

Lemma underflow_store_fits b :
  store_fits (underflow_store b) {| layers := [25; 25; 1; 1; 1]%Z |}.
Proof.
  intros id u Hl.
  destruct id as [| [| [| [| [| id]]]]]; simpl in Hl; try done;
    injection Hl as <-;
    first [ exists 25%nat; split; [done | apply flat_layer_shape]
          | exists 1%nat; split; [done | apply flat_layer_shape] ].
Qed.

Lemma zip_add_zero_weights x b u :
  zip_with t_add (map (t_mul (Fin x)) (replicate u (Fin 0)))
                 (replicate u (Fin b))
  = replicate u (Fin b).
Proof.
  induction u as [| u IH]; [done |]. cbn [replicate map zip_with].
  rewrite IH. f_equal. cbn. f_equal. lra.
Qed.

(** A layer whose weights are zero returns its bias. *)
Lemma affine_zero_weights d u b (xs : list R) :
  affine (flat_layer d u (Fin 0) (Fin b)) (map Fin xs) = replicate u (Fin b).
Proof.
  unfold affine, flat_layer. cbn [kernel bias].
  revert d. induction xs as [| x xs IH]; intros [| d]; try done.
  cbn [map replicate zip zip_with foldr]. 
  change (zip_with pair (map Fin xs) (replicate d (replicate u (Fin 0))))
    with (zip (map Fin xs) (replicate d (replicate u (Fin 0)))).
  rewrite IH. cbn [fst snd]. apply zip_add_zero_weights.
Qed.

Lemma relu_replicate u b :
  map t_relu (replicate u (Fin b)) = map Fin (replicate u (Rmax b 0)).
Proof. induction u as [| u IH]; [done |]. simpl in *. by rewrite IH. Qed.

Lemma underflow_hidden_row b x :
  hidden_row (underflow_store b) 0 [Fin x]
  = map Fin (replicate 25 (Rmax 0 0)).
Proof.
  unfold hidden_row. cbn [underflow_store Nat.add].
  change [Fin x] with (map Fin [x]).
  rewrite (affine_zero_weights 1 25 0 [x]), relu_replicate.
  by rewrite affine_zero_weights, relu_replicate.
Qed.

Lemma underflow_mu_row b x : mu_row (underflow_store b) 0 [Fin x] = [Fin 0].
Proof.
  unfold mu_row. rewrite underflow_hidden_row. cbn [underflow_store Nat.add].
  by rewrite affine_zero_weights.
Qed.

Lemma underflow_sigma_row b x :
  sigma_row (underflow_store b) 0 [Fin x] = [fp_exp underflow_ops (Fin b)].
Proof.
  unfold sigma_row. rewrite underflow_hidden_row. cbn [underflow_store Nat.add].
  by rewrite affine_zero_weights.
Qed.

Lemma underflow_pi_row b x : pi_row (underflow_store b) 0 [Fin x] = [Fin 1].
Proof.
  unfold pi_row. rewrite underflow_hidden_row. cbn [underflow_store Nat.add].
  rewrite affine_zero_weights. unfold softmax_row, reduce_sum. cbn.
  destruct (Rlt_dec 0 (-104)) as [Hlt | _]; [lra |]. cbn.
  pose proof (exp_pos 0) as He.
  destruct (Req_dec_T (exp 0 + 0) 0) as [Heq | _]; [lra |].
  do 2 f_equal. field. lra.
Qed.

End Underflow.

Section UnderflowRuns.
Open Scope R_scope.
#[local] Existing Instance underflow_backend.

(** One call of [log_prob] on a model with K = 1, and a batch of one row
    whose target is 100. *)
Definition underflow_run
  : (@scalar_tensor (fp R) * @MixtureDensityNetwork (fp R)) * graph :=
  log_prob (__init__ 1) script_data empty_graph.

Definition far_target : @feed_dict (fp R) :=
  {| feed_X := [[Fin 1]]; feed_y := [[Fin 100]] |}.

Lemma underflow_run_parameters b :
  attr (pi underflow_run.1.2) (underflow_store b) far_target = [[Fin 1]]
  ∧ attr (mus underflow_run.1.2) (underflow_store b) far_target = [[Fin 0]]
  ∧ attr (sigmas underflow_run.1.2) (underflow_store b) far_target
    = [[fp_exp underflow_ops (Fin b)]].
Proof.
  unfold underflow_run.
  destruct (log_prob_unfold (__init__ 1) script_data empty_graph)
    as (-> & _ & _).
  destruct (neural_network_unfold (__init__ 1) (data_X script_data)
              empty_graph) as (_ & _ & Hm & Hs & Hp).
  rewrite Hm, Hs, Hp. cbn [data_X script_data empty_graph layers length].
  unfold placeholder_X, far_target. cbn [feed_X].
  destruct (compute_mixture_parameters_rows (underflow_store b) 0 [[Fin 1]])
    as (-> & -> & ->).
  cbn [map].
  by rewrite underflow_pi_row, underflow_mu_row, underflow_sigma_row.
Qed.

Lemma underflow_exp_0 : fp_exp underflow_ops (Fin 0) = Fin 1.
Proof.
  cbn. destruct (Rlt_dec 0 (-104)) as [Hlt | _]; [lra |]. by rewrite exp_0.
Qed.

Lemma underflow_exp_small x : x < -104 → fp_exp underflow_ops (Fin x) = Fin 0.
Proof. intros Hx. cbn. by destruct (Rlt_dec x (-104)). Qed.

Lemma ln_2PI_pos : 0 < ln (2 * PI).
Proof.
  rewrite <- ln_1. apply ln_increasing; [lra |].
  pose proof PI2_1. lra.
Qed.

(** The Gaussian log-density of the target 100 under mean 0 and standard
    deviation 1 is a finite number, below -104. *)
Lemma far_target_logpdf :
  ∃ L, L < -104 ∧ logpdf_entry (Fin 100) (Fin 0) (Fin 1) = Fin L.
Proof.
  exists (- / 2 * ln (2 * PI) - ln 1 - / 2 * ((100 - 0) / 1 * ((100 - 0) / 1))).
  split.
  - rewrite ln_1. pose proof ln_2PI_pos. lra.
  - unfold logpdf_entry, t_square. cbn.
    destruct (Req_dec_T 1 0) as [Heq | _]; [lra |].
    destruct (Rlt_dec 1 0) as [Hlt | _]; [lra |]. done.
Qed.

(** Lines 53-55 on that row: the density underflows to 0 and its log is
    minus infinity. *)
Lemma far_target_mixture_log_prob :
  mixture_log_prob [[Fin 1]] [[Fin 0]] [[Fin 1]] [[Fin 100]] = NInf.
Proof.
  rewrite mixture_log_prob_cons, mixture_log_prob_nil.
  unfold row_log_prob.
  change (logpdf_row [Fin 100] [Fin 0] [Fin 1])
    with [logpdf_entry (Fin 100) (Fin 0) (Fin 1)].
  destruct far_target_logpdf as (L & HL & ->).
  cbn [map]. change (t_exp (Fin L)) with (fp_exp underflow_ops (Fin L)).
  rewrite (underflow_exp_small L HL). unfold reduce_sum. cbn.
  destruct (Req_dec_T (1 * 0 + 0) 0) as [_ | Hne]; [done | lra].
Qed.

Lemma underflow_run_value :
  underflow_run.1.1 (underflow_store 0) far_target = NInf.
Proof.
  destruct (underflow_run_parameters 0) as (Hp & Hm & Hs).
  rewrite underflow_exp_0 in Hs. unfold underflow_run in *.
  destruct (log_prob_unfold (__init__ 1) script_data empty_graph)
    as (_ & _ & Hval).
  rewrite Hval, Hp, Hm, Hs. apply far_target_mixture_log_prob.
Qed.

(** C1 fails in single precision.  The network computes pi = 1, mu = 0 and
    sigma = 1, all finite; the value the claim gives is a finite number,
    the log of the Gaussian density at 100; [log_prob] evaluates to minus
    infinity, because the exponential on line 53 underflows. *)
Lemma log_prob_underflow_counterexample :
  store_fits (underflow_store 0) underflow_run.2
  ∧ shape (feed_X far_target) 1 1 ∧ shape (feed_y far_target) 1 1
  ∧ attr (pi underflow_run.1.2) (underflow_store 0) far_target = [[Fin 1]]
  ∧ attr (mus underflow_run.1.2) (underflow_store 0) far_target = [[Fin 0]]
  ∧ attr (sigmas underflow_run.1.2) (underflow_store 0) far_target
    = [[Fin 1]]
  ∧ underflow_run.1.1 (underflow_store 0) far_target = NInf
  ∧ underflow_run.1.1 (underflow_store 0) far_target
    ≠ Fin (log_likelihood 1 1
             (real_batch (attr (pi underflow_run.1.2) (underflow_store 0)
                            far_target))
             (real_batch (attr (mus underflow_run.1.2) (underflow_store 0)
                            far_target))
             (real_batch (attr (sigmas underflow_run.1.2) (underflow_store 0)
                            far_target))
             (real_batch (feed_y far_target))).
Proof.
  destruct (underflow_run_parameters 0) as (Hp & Hm & Hs).
  rewrite underflow_exp_0 in Hs.
  split; [apply (underflow_store_fits 0) |].
  split; [split; [reflexivity | repeat constructor] |].
  split; [split; [reflexivity | repeat constructor] |].
  split; [exact Hp |]. split; [exact Hm |]. split; [exact Hs |].
  split; [exact underflow_run_value |].
  rewrite underflow_run_value. discriminate.
Qed.


(** C7 fails in single precision.  For K = 1 the weight is still 1 and the
    log-likelihood of the single Gaussian is finite, whether the backend
    computes it or it is taken in exact arithmetic; [log_prob] evaluates to
    minus infinity. *)
Lemma single_component_underflow_counterexample :
  K (__init__ 1 : @MixtureDensityNetwork (fp R)) = 1%Z
  ∧ store_fits (underflow_store 0) underflow_run.2
  ∧ entry (attr (pi underflow_run.1.2) (underflow_store 0) far_target) 0 0
    = Fin 1
  ∧ (∃ L, gaussian_log_prob
            (attr (mus underflow_run.1.2) (underflow_store 0) far_target)
            (attr (sigmas underflow_run.1.2) (underflow_store 0) far_target)
            (feed_y far_target) = Fin L)
  ∧ underflow_run.1.1 (underflow_store 0) far_target
    ≠ gaussian_log_prob
        (attr (mus underflow_run.1.2) (underflow_store 0) far_target)
        (attr (sigmas underflow_run.1.2) (underflow_store 0) far_target)
        (feed_y far_target)
  ∧ underflow_run.1.1 (underflow_store 0) far_target
    ≠ Fin (gaussian_log_likelihood 1
             (real_batch (attr (mus underflow_run.1.2) (underflow_store 0)
                            far_target))
             (real_batch (attr (sigmas underflow_run.1.2) (underflow_store 0)
                            far_target))
             (real_batch (feed_y far_target))).
Proof.
  destruct (underflow_run_parameters 0) as (Hp & Hm & Hs).
  rewrite underflow_exp_0 in Hs.
  assert (Hg : ∃ L, gaussian_log_prob
            (attr (mus underflow_run.1.2) (underflow_store 0) far_target)
            (attr (sigmas underflow_run.1.2) (underflow_store 0) far_target)
            (feed_y far_target) = Fin L).
  { rewrite Hm, Hs. unfold gaussian_log_prob, far_target. cbn [feed_y map take].
    rewrite norm_logpdf_cons.
    change (logpdf_row [Fin 100] [Fin 0] [Fin 1])
      with [logpdf_entry (Fin 100) (Fin 0) (Fin 1)].
    destruct far_target_logpdf as (L & _ & ->).
    exists (L + 0 + 0). reflexivity. }
  split; [reflexivity |].
  split; [apply (underflow_store_fits 0) |].
  split; [by rewrite Hp |].
  split; [exact Hg |].
  rewrite underflow_run_value. destruct Hg as (L & ->).
  split; discriminate.
Qed.

End UnderflowRuns.
